(** * Aino Pro: a shallow embedding of the physiological animation core

    The C++ sources (spinal_circuit.h, muscle_huxley.h, metabolism.h,
    tendon_viscoelastic.h, emotion_model.h, cognitive_appraisal.h,
    aino_pro.h, physiological_actor.h) are transcribed function by function.

    Numbers.  Every C++ [float] is an exact rational [Q]: the literals keep
    their decimal value and [+ - * /] are exact, so rounding, overflow and
    NaN are outside the model.  Equality of computed numbers is [==].
    The transcendental functions of <cmath> are left abstract (record
    [Libm]); the theorems hold for every choice of them.

    State.  Objects are records, [std::vector] is [list], the
    [std::unordered_map] of context parameters is a [gmap string Q], and the
    process-wide variables (grid size, engine configuration, the static
    frame counter) are the fields of [Globals], threaded explicitly. *)

From Stdlib Require Import QArith Qabs Qround Lqa ZArith.
From stdpp Require Import gmap strings list.

#[local] Open Scope Q_scope.

(* ================================================================= *)
(** ** Floating-point vocabulary *)

Abbreviation float := Q (only parsing).

Definition fltb (a b : float) : bool := negb (Qle_bool b a).
Definition fleb (a b : float) : bool := Qle_bool a b.

(** [std::max(a, b)] is [(a < b) ? b : a]; [std::min(a, b)] is
    [(b < a) ? b : a]; [std::clamp(v, lo, hi)] is
    [(v < lo) ? lo : (hi < v) ? hi : v]. *)
Definition fmax (a b : float) : float := if fltb a b then b else a.
Definition fmin (a b : float) : float := if fltb b a then b else a.
Definition fclamp (v lo hi : float) : float :=
  if fltb v lo then lo else if fltb hi v then hi else v.

(** The functions taken from <cmath>. *)
Record Libm := mkLibm {
  fexp : float -> float;
  fpow : float -> float -> float;
  fcos : float -> float
}.

(** [for (i = 0; i < n; ++i) body] over a state [S]. *)
Definition for_range {S : Type} (n : nat) (body : nat -> S -> S) (s : S) : S :=
  foldl (fun acc i => body i acc) s (seq 0 n).

(** [float(i)] for a loop counter. *)
Definition of_nat (i : nat) : float := inject_Z (Z.of_nat i).

(* ================================================================= *)
(** ** neuroscience/spinal_circuit.hpp *)

Module MotorNeuronPool.

Definition N_NEURONS : nat := 100.

Record Neuron := mkNeuron {
  firing_rate : float;
  recruitment_threshold : float;
  fatigue : float;
  after_hyperpolarization : float
}.

Record t := mk {
  neurons : list Neuron;
  central_drive : float;
  spindle_feedback : float;
  ib_inhibition : float;
  renshaw_inhibition : float;
  setpoint : float;
  tendon_force : float
}.

Definition set_threshold (th : float) (n : Neuron) : Neuron :=
  mkNeuron (firing_rate n) th (fatigue n) (after_hyperpolarization n).

(** The constructor: [neurons(N_NEURONS)] then the threshold loop. *)
Definition new (libm : Libm) : t :=
  mk (for_range N_NEURONS
        (fun i ns =>
           alter (set_threshold (fpow libm (of_nat i / of_nat N_NEURONS) 1.5)) i ns)
        (replicate N_NEURONS (mkNeuron 0 0 0 0)))
     0 0 0 0 0 0.

Definition total_drive (p : t) : float :=
  fclamp (central_drive p + spindle_feedback p * 0.3
          - ib_inhibition p * 0.5 - renshaw_inhibition p * 0.2) 0 1.

(** Body of the loop of [step] for one neuron. *)
Definition step_neuron (td dt : float) (n : Neuron) : Neuron :=
  let drive := td - recruitment_threshold n in
  if fltb 0 drive && fleb (after_hyperpolarization n) 0 then
    let fr := fclamp (50 * drive * (1 - fatigue n)) 0 200 in
    mkNeuron fr (recruitment_threshold n) (fatigue n + fr * dt * 0.0001) 0.2
  else
    mkNeuron 0 (recruitment_threshold n)
             (fmax (fatigue n - dt * 0.01) 0)
             (after_hyperpolarization n - dt).

Definition step (p : t) (dt : float) : t :=
  let td := total_drive p in
  mk (for_range N_NEURONS (fun i ns => alter (step_neuron td dt) i ns) (neurons p))
     (central_drive p) (spindle_feedback p) (ib_inhibition p)
     (renshaw_inhibition p) (setpoint p) (tendon_force p).

Definition get_average_firing_rate (p : t) : float :=
  foldl (fun sum n => sum + firing_rate n) 0 (neurons p) / of_nat N_NEURONS.

Definition set_central_drive (p : t) (drive : float) : t :=
  mk (neurons p) (fclamp drive 0 1) (spindle_feedback p) (ib_inhibition p)
     (renshaw_inhibition p) (setpoint p) (tendon_force p).

Definition set_spindle_feedback (p : t) (feedback : float) : t :=
  mk (neurons p) (central_drive p) feedback (ib_inhibition p)
     (renshaw_inhibition p) (setpoint p) (tendon_force p).

Definition set_tendon_force (p : t) (force : float) : t :=
  mk (neurons p) (central_drive p) (spindle_feedback p) (ib_inhibition p)
     (renshaw_inhibition p) (setpoint p) force.

Definition update_ib_inhibition (p : t) : t :=
  let ib_threshold := 0.8 in
  mk (neurons p) (central_drive p) (spindle_feedback p)
     (if fltb ib_threshold (tendon_force p)
      then (tendon_force p - ib_threshold) * 2 else 0)
     (renshaw_inhibition p) (setpoint p) (tendon_force p).

Definition add_renshaw_inhibition (p : t) (inhibition : float) : t :=
  mk (neurons p) (central_drive p) (spindle_feedback p) (ib_inhibition p)
     (renshaw_inhibition p + inhibition) (setpoint p) (tendon_force p).

End MotorNeuronPool.

Module SpinalSegment.

Record t := mk {
  flexor : MotorNeuronPool.t;
  extensor : MotorNeuronPool.t
}.

Definition new (libm : Libm) : t :=
  mk (MotorNeuronPool.new libm) (MotorNeuronPool.new libm).

Definition step (s : t) (desired_torque joint_angle joint_velocity dt : float) : t :=
  let spindle_gain := 100 in
  let spindle_vel_gain := 5 in
  let spindle_feedback :=
    (joint_angle - MotorNeuronPool.setpoint (flexor s)) * spindle_gain
    + joint_velocity * spindle_vel_gain in
  let f := MotorNeuronPool.set_spindle_feedback (flexor s) spindle_feedback in
  let e := MotorNeuronPool.set_spindle_feedback (extensor s) (- spindle_feedback) in
  let f := MotorNeuronPool.set_central_drive f (fmax desired_torque 0) in
  let e := MotorNeuronPool.set_central_drive e (fmax (- desired_torque) 0) in
  let f := MotorNeuronPool.update_ib_inhibition f in
  let e := MotorNeuronPool.update_ib_inhibition e in
  let f_rate := MotorNeuronPool.get_average_firing_rate f in
  let e_rate := MotorNeuronPool.get_average_firing_rate e in
  let renshaw_strength := 0.3 in
  let f := MotorNeuronPool.add_renshaw_inhibition f (e_rate * renshaw_strength) in
  let e := MotorNeuronPool.add_renshaw_inhibition e (f_rate * renshaw_strength) in
  mk (MotorNeuronPool.step f dt) (MotorNeuronPool.step e dt).

Definition set_emotional_modulation (s : t) (fear : float) : t :=
  let gamma_gain := 1 + fear * 0.5 in
  mk (MotorNeuronPool.set_spindle_feedback (flexor s)
        (MotorNeuronPool.spindle_feedback (flexor s) * gamma_gain))
     (MotorNeuronPool.set_spindle_feedback (extensor s)
        (MotorNeuronPool.spindle_feedback (extensor s) * gamma_gain)).

Definition get_net_activation (s : t) : float :=
  MotorNeuronPool.get_average_firing_rate (flexor s)
  - MotorNeuronPool.get_average_firing_rate (extensor s).

End SpinalSegment.

Module SpinalCord.

Record t := mk { segments : list SpinalSegment.t }.

Definition new (libm : Libm) (segment_count : nat) : t :=
  mk (replicate segment_count (SpinalSegment.new libm)).

(** The guard returns before any segment is touched; otherwise segment [i]
    is stepped with [desired_torques[i]] and zero joint angle and velocity. *)
Definition step (c : t) (desired_torques : list float) (dt : float) : t :=
  if negb (length desired_torques =? length (segments c))%nat then c
  else
    mk (for_range (length (segments c))
          (fun i segs =>
             alter (fun s => SpinalSegment.step s (default 0 (desired_torques !! i)) 0 0 dt)
                   i segs)
          (segments c)).

Definition get_muscle_activations (c : t) : list float :=
  SpinalSegment.get_net_activation <$> segments c.

(** Modelled from the spec: [SpinalCord::set_emotional_modulation] is called
    by the actor but not declared in spinal_circuit.hpp.  Section 4.5 says the
    modulation multiplies spindle feedback by the gamma gain before the pool
    step, and [SpinalSegment] has the method that does so; the cord applies
    it to each of its segments. *)
Definition set_emotional_modulation (c : t) (fear : float) : t :=
  mk ((fun s => SpinalSegment.set_emotional_modulation s fear) <$> segments c).

End SpinalCord.

(* ================================================================= *)
(** ** aino_math.hpp and aino_animation.hpp *)

Record Vec3 := mkVec3 { vx : float; vy : float; vz : float }.

(** The per-frame context.  [parameters] is the string-to-float map;
    [emotion_mood_stress] is what the appraiser reads as
    [ctx.emotion.mood.stress].  The pose buffer pointer is not modelled. *)
Record AnimationContext := mkContext {
  delta_time : float;
  parameters : gmap string float;
  emotion_mood_stress : float
}.

(* ================================================================= *)
(** ** psychology/emotion_model.hpp *)

Module EmotionProfile.

Record Primary := mkPrimary {
  joy : float; sadness : float; anger : float;
  fear : float; surprise : float; disgust : float;
  trust : float; anticipation : float
}.

Record Social := mkSocial {
  guilt : float; shame : float; pride : float; envy : float;
  gratitude : float; love : float; hate : float; anxiety : float
}.

Record Mood := mkMood {
  depression : float;
  stress : float;
  valence : float;
  arousal : float
}.

Record t := mk { primary : Primary; social : Social; mood : Mood }.

(** The default member initialisers. *)
Definition Primary0 : Primary := mkPrimary 0 0 0 0 0 0 0 0.
Definition Social0 : Social := mkSocial 0 0 0 0 0 0 0 0.
Definition Mood0 : Mood := mkMood 0 0 0 0.
Definition new : t := mk Primary0 Social0 Mood0.

Definition primary_channels (p : Primary) : list float :=
  [joy p; sadness p; anger p; fear p; surprise p; disgust p; trust p;
   anticipation p].

Definition social_channels (s : Social) : list float :=
  [guilt s; shame s; pride s; envy s; gratitude s; love s; hate s; anxiety s].

End EmotionProfile.

Module MoodDynamics.

Record t := mk {
  depression_accumulator : float;
  stress_accumulator : float
}.

Definition new : t := mk 0 0.

Definition DEPRESSION_HALFLIFE : float := 86400.
Definition STRESS_HALFLIFE : float := 3600.

Definition update (libm : Libm) (m : t) (dt : float)
    (instant_emotion : EmotionProfile.t) : t :=
  let prim := EmotionProfile.primary instant_emotion in
  let d := if fltb 0.7 (EmotionProfile.sadness prim)
           then depression_accumulator m + dt * 0.1
           else depression_accumulator m - dt * 0.01 in
  let s := if fltb 0.6 (EmotionProfile.fear prim)
           then stress_accumulator m + dt * 0.5
           else stress_accumulator m - dt * 0.2 in
  let d := d * fexp libm (- dt * 0.693 / DEPRESSION_HALFLIFE) in
  let s := s * fexp libm (- dt * 0.693 / STRESS_HALFLIFE) in
  mk (fclamp d 0 1) (fclamp s 0 1).

Definition get_state (m : t) : EmotionProfile.Mood :=
  EmotionProfile.mkMood
    (depression_accumulator m)
    (stress_accumulator m)
    (1 - depression_accumulator m * 0.5)
    (stress_accumulator m * 0.3).

End MoodDynamics.

(* ================================================================= *)
(** ** psychology/cognitive_appraisal.hpp *)

Record Stimulus := mkStimulus {
  category : string;
  intensity : float;
  position : Vec3;
  urgency : float;
  familiarity : float;
  predictability : float
}.

Module CognitiveAppraiser.

Import EmotionProfile.

Record AppraisalOutput := mkOutput {
  emotion : EmotionProfile.t;
  coping_potential : float;
  goal_relevance : float
}.

Definition primary_appraisal (stim : Stimulus) : Primary :=
  if (String.eqb (category stim) "threat" || String.eqb (category stim) "enemy")%bool then
    mkPrimary 0 0
      (intensity stim * (1 - predictability stim) * 0.5)
      (intensity stim * (2 - familiarity stim))
      ((1 - predictability stim) * urgency stim)
      0 0 0
  else if (String.eqb (category stim) "reward" || String.eqb (category stim) "friend")%bool then
    mkPrimary (intensity stim) 0 0 0 0 0 (intensity stim * familiarity stim) 0
  else if String.eqb (category stim) "loss" then
    mkPrimary 0 (intensity stim) 0 0 0 0 0 0
  else Primary0.

Definition secondary_appraisal (stim : Stimulus) (ctx : AnimationContext) : float :=
  let self_efficacy := default 0.5 (parameters ctx !! "self_efficacy") in
  let resource := 1 - emotion_mood_stress ctx * 0.5 in
  let controllability := predictability stim * 0.6 + familiarity stim * 0.4 in
  self_efficacy * resource * controllability.

Definition set_fear (f : float) (p : Primary) : Primary :=
  mkPrimary (joy p) (sadness p) (anger p) f (surprise p) (disgust p)
            (trust p) (anticipation p).

Definition appraise (stim : Stimulus) (ctx : AnimationContext) : AppraisalOutput :=
  let prim := primary_appraisal stim in
  let coping := secondary_appraisal stim ctx in
  let soc :=
    if fltb coping 0.3 && fltb 0.6 (intensity stim) then
      let self_esteem := default 0.5 (parameters ctx !! "self_esteem") in
      mkSocial 0 ((1 - self_esteem) * intensity stim) 0 0 0 0 0
               ((1 - coping) * intensity stim)
    else Social0 in
  let prim := set_fear (fear prim * (1 + emotion_mood_stress ctx * 0.5)) prim in
  let relevance := urgency stim * intensity stim in
  if fltb relevance 0.2
  then mkOutput EmotionProfile.new coping relevance
  else mkOutput (EmotionProfile.mk prim soc Mood0) coping relevance.

End CognitiveAppraiser.

(* ================================================================= *)
(** ** biology/muscle_huxley.hpp *)

(** [v[j]] for an index the code keeps in range. *)
Definition rd (v : list float) (j : nat) : float := default 0 (v !! j).

Module HuxleyFiber.

Definition DX : float := 1.
Definition LAMBDA : float := 10.

Record Params := mkParams {
  f1 : float; g1 : float; g2 : float; k : float;
  v_max : float; a : float; b : float
}.

Definition default_params : Params :=
  mkParams 200 10 50 2.0e-6 2500 25 2.5.

Record t := mk {
  n : list float;
  params : Params;
  F_ce : float
}.

(** [GRID_SIZE] is the static member; the constructor and [step] read it. *)
Definition new (GRID_SIZE : Z) : t :=
  mk (resize (Z.to_nat GRID_SIZE) 0 []) default_params 0.

(** Position of bin [i]: [(i - GRID_SIZE/2) * DX], the quotient in [int]. *)
Definition bin_x (GRID_SIZE : Z) (i : nat) : float :=
  inject_Z (Z.of_nat i - Z.quot GRID_SIZE 2) * DX.

Definition rate_f (libm : Libm) (p : Params) (x activation : float) : float :=
  f1 p * fexp libm (- Qabs x / LAMBDA) * activation.

Definition rate_g (p : Params) (x v_rel : float) : float :=
  g1 p + g2 p * fmax (x / LAMBDA) 0 + v_rel * 10.

Definition i_left (i : nat) : nat := Z.to_nat (Z.max (Z.of_nat i - 1) 0).
Definition i_right (GRID_SIZE : Z) (i : nat) : nat :=
  Z.to_nat (Z.min (Z.of_nat i + 1) (GRID_SIZE - 1)).

(** One iteration of the bin loop.  The loop works on the vector [n]
    itself: iteration [i] reads [n[i_left]], [n[i]] and [n[i_right]] from the
    vector as the earlier iterations left it, and writes [n[i]]. *)
Definition bin_body (libm : Libm) (GRID_SIZE : Z) (p : Params)
    (activation v_rel dt : float) (i : nat) (st : list float * float)
    : list float * float :=
  let '(ns, sum_force) := st in
  let x := bin_x GRID_SIZE i in
  let f := rate_f libm p x activation in
  let g := rate_g p x v_rel in
  let convection :=
    v_rel * (rd ns (i_right GRID_SIZE i) - rd ns (i_left i)) / (2 * DX) in
  let dn_dt := f * (1 - rd ns i) - g * rd ns i - convection in
  let ni := fclamp (rd ns i + dn_dt * dt) 0 1 in
  (<[i := ni]> ns, sum_force + ni * k p * (x * 1e-9)).

(** The reallocation at the top of [step]:
    [if ((int)n.size() != GRID_SIZE) n.resize(GRID_SIZE, 0.0f)]. *)
Definition start_grid (GRID_SIZE : Z) (fb : t) : list float :=
  if negb (Z.of_nat (List.length (n fb)) =? GRID_SIZE)%Z
  then resize (Z.to_nat GRID_SIZE) 0 (n fb) else n fb.

Definition step (libm : Libm) (GRID_SIZE : Z) (fb : t)
    (activation length velocity dt : float) : t :=
  let n0 := start_grid GRID_SIZE fb in
  let v_rel := velocity / v_max (params fb) in
  let '(ns, sum_force) :=
    for_range (Z.to_nat GRID_SIZE)
      (bin_body libm GRID_SIZE (params fb) activation v_rel dt) (n0, 0) in
  let F := if fltb 0 velocity
           then sum_force + a (params fb) * velocity / (b (params fb) + velocity)
           else sum_force in
  mk ns (params fb) F.

Definition get_force (fb : t) : float := F_ce fb.
Definition get_activation (GRID_SIZE : Z) (fb : t) : float :=
  rd (n fb) (Z.to_nat (Z.quot GRID_SIZE 2)).

End HuxleyFiber.

Module Muscle.

Record Attachment := mkAttachment { bone_name : string; att_position : float }.

Record t := mk {
  fibers : list HuxleyFiber.t;
  pennation_angle : float;
  mass : float;
  length : float;
  velocity : float;
  output_force : float;
  origin : Attachment;
  insertion : Attachment
}.

Definition new (GRID_SIZE : Z) (fiber_count : nat) : t :=
  mk (replicate fiber_count (HuxleyFiber.new GRID_SIZE)) 0 0.3 0.3 0 0
     (mkAttachment "" 0) (mkAttachment "" 0).

Definition step (libm : Libm) (GRID_SIZE : Z) (m : t) (activation dt : float) : t :=
  let fs :=
    for_range (List.length (fibers m))
      (fun i fs =>
         alter (fun f => HuxleyFiber.step libm GRID_SIZE f activation
                           (length m) (velocity m) dt) i fs)
      (fibers m) in
  let sum := foldl (fun sum f => sum + HuxleyFiber.get_force f) 0 fs in
  mk fs (pennation_angle m) (mass m) (length m) (velocity m)
     (sum / of_nat (List.length fs) * mass m * fcos libm (pennation_angle m))
     (origin m) (insertion m).

Definition get_force (m : t) : float := output_force m.

Definition set_attachments (m : t) (o i : Attachment) : t :=
  mk (fibers m) (pennation_angle m) (mass m) (length m) (velocity m)
     (output_force m) o i.

End Muscle.

(* ================================================================= *)
(** ** biology/metabolism.hpp *)

Definition smoothstep (x edge0 edge1 : float) : float :=
  let x := fclamp ((x - edge0) / (edge1 - edge0)) 0 1 in
  x * x * (3 - 2 * x).

Module MetabolicSystem.

Record t := mk {
  ATP : float;
  PCr : float;
  glycogen : float;
  lactate : float;
  pyruvate : float;
  time_since_exercise : float
}.

Definition new : t := mk 1 1 1 0 0 0.

Definition k_ATPase : float := 0.05.
Definition k_CK : float := 2.5.
Definition k_Glycolysis : float := 0.03.
Definition k_Oxidative : float := 0.02.
Definition k_LactateClearance : float := 0.01.
Definition LactateThreshold : float := 0.4.

Definition update (libm : Libm) (s : t) (muscle_activation dt : float) : t :=
  let time_since_exercise := time_since_exercise s + dt in
  let J_ATP_hydrolysis := k_ATPase * muscle_activation in
  let J_PCr_synthesis := k_CK * PCr s * (1 - ATP s) in
  let J_PCr_recovery := k_CK * 0.1 * (1 - PCr s) in
  let H_concentration := lactate s * 0.1 in
  let glycolysis_inhibition :=
    1 / (1 + fexp libm ((H_concentration - 0.05) / 0.01)) in
  let J_glycolysis := k_Glycolysis * glycogen s * glycolysis_inhibition in
  let oxidative_delay := smoothstep time_since_exercise 0 30 in
  let J_oxidative := k_Oxidative * oxidative_delay * pyruvate s in
  let J_lactate_production := J_glycolysis * 0.5 in
  let J_lactate_clearance := k_LactateClearance * lactate s / (1 + lactate s) in
  let J_pyruvate_to_lactate := J_glycolysis * 0.5 - J_oxidative * 0.7 in
  let J_pyruvate_to_acetyl := J_oxidative * 0.7 in
  let ATP' := ATP s + dt * (- J_ATP_hydrolysis + J_PCr_synthesis) in
  let PCr' := PCr s + dt * (- J_PCr_synthesis + J_PCr_recovery) in
  let glycogen' := glycogen s + dt * (- J_glycolysis + 0.005) in
  let lactate' := lactate s + dt * (J_lactate_production - J_lactate_clearance) in
  let pyruvate' := pyruvate s + dt * (J_pyruvate_to_lactate - J_pyruvate_to_acetyl) in
  mk (fclamp ATP' 0 1) (fclamp PCr' 0.3 1) (fclamp glycogen' 0 1)
     (fclamp lactate' 0 1) (fclamp pyruvate' 0 0.2) time_since_exercise.

Definition get_fatigue_factor (s : t) : float :=
  let energy_deficit := (1 - ATP s) * 0.4 + (1 - PCr s) * 0.4 in
  let acidosis := if fltb LactateThreshold (lactate s)
                  then (lactate s - LactateThreshold) * 1.5 else 0 in
  fclamp (energy_deficit + acidosis) 0 1.

Definition get_perceived_exertion (s : t) : float :=
  6 + 14 * get_fatigue_factor s.

Definition get_state (s : t) : list float :=
  [ATP s; PCr s; glycogen s; lactate s; get_perceived_exertion s].

End MetabolicSystem.

(* ================================================================= *)
(** ** biology/tendon_viscoelastic.hpp *)

Module TendonNonlinear.

Definition N_TERMS : nat := 5.

Record PronyTerm := mkTerm {
  modulus : float;
  tau : float;
  strain_memory : float
}.

Record t := mk {
  terms : list PronyTerm;
  E_linear : float;
  E_nonlinear : float;
  epsilon_max : float;
  viscosity : float;
  last_strain : float;
  hysteresis_loss : float;
  dt_accum : float
}.

Definition new : t :=
  mk [mkTerm 0.5e9 0.1 0; mkTerm 0.3e9 1 0; mkTerm 0.2e9 10 0;
      mkTerm 0.1e9 100 0; mkTerm 0.05e9 1000 0]
     1.2e9 8.0e10 0.08 1500 0 0 0.

(** One iteration of the Prony loop: decay and refresh the memory of term
    [i], then add its contribution to [sigma_history]. *)
Definition prony_body (libm : Libm) (strain dt : float) (i : nat)
    (st : list PronyTerm * float) : list PronyTerm * float :=
  let '(ts, sigma_history) := st in
  match ts !! i with
  | Some tm =>
      let decay := fexp libm (- dt / tau tm) in
      let mem := strain_memory tm * decay + strain * dt in
      (<[i := mkTerm (modulus tm) (tau tm) mem]> ts,
       sigma_history + modulus tm * mem / (tau tm + 1e-6))
  | None => st
  end.

(** Returns the updated tendon and the stress. *)
Definition compute_stress (libm : Libm) (tn : t) (strain strain_rate dt : float)
    : t * float :=
  let dt_accum := dt_accum tn + dt in
  let epsilon := fclamp strain 0 (epsilon_max tn) in
  let sigma_elastic :=
    E_linear tn * epsilon + E_nonlinear tn * epsilon * epsilon in
  let sigma_viscous := viscosity tn * strain_rate * (1 + epsilon * 5) in
  let '(ts, sigma_history) :=
    for_range N_TERMS (prony_body libm strain dt) (terms tn, 0) in
  let sigma_total := sigma_elastic + sigma_viscous + sigma_history in
  let loss :=
    if fltb (strain_rate * (strain - last_strain tn)) 0
    then hysteresis_loss tn + Qabs (sigma_viscous * strain_rate * dt)
    else hysteresis_loss tn in
  let max_stress := E_nonlinear tn * epsilon_max tn * epsilon_max tn in
  (mk ts (E_linear tn) (E_nonlinear tn) (epsilon_max tn) (viscosity tn)
      strain loss dt_accum,
   fclamp sigma_total 0 max_stress).

Definition get_hysteresis_loss (tn : t) : float := hysteresis_loss tn.

Definition reset_hysteresis (tn : t) : t :=
  mk (terms tn) (E_linear tn) (E_nonlinear tn) (epsilon_max tn)
     (viscosity tn) (last_strain tn) 0 (dt_accum tn).

Definition set_linear_mode (tn : t) : t :=
  mk ((fun tm => mkTerm 0 (tau tm) (strain_memory tm)) <$> terms tn)
     (E_linear tn) 0 (epsilon_max tn) 0
     (last_strain tn) (hysteresis_loss tn) (dt_accum tn).

Definition get_stiffness (tn : t) : float := E_linear tn.

End TendonNonlinear.

(* ================================================================= *)
(** ** aino_pro.hpp *)

Inductive Accuracy := Realtime | Standard | High | Extreme.

Record FeatureFlags := mkFeatures {
  enable_metabolism : bool;
  enable_emotion : bool;
  enable_neural : bool;
  enable_hysteresis : bool;
  enable_fatigue : bool;
  enable_thermal : bool
}.

Record PerformanceBudget := mkBudget {
  cpu_ms_per_frame : float;
  muscle_update_ratio : float;
  max_muscle_grids : Z
}.

Record HumanParams := mkHuman {
  muscle_fiber_composition : float;
  fitness_level : float;
  age : float
}.

Record Config := mkConfig {
  accuracy : Accuracy;
  features : FeatureFlags;
  budget : PerformanceBudget;
  physiology : HumanParams
}.

Definition default_config : Config :=
  mkConfig Standard (mkFeatures true true true true true false)
           (mkBudget 3 1 100) (mkHuman 0.5 0.7 25).

(** The variables with static storage: [HuxleyFiber::GRID_SIZE],
    [Engine::t_config], [Engine::s_initialized] and the [frame_counter] local
    to [PhysiologicalActor::update].  The recorder handle is not modelled. *)
Record Globals := mkGlobals {
  GRID_SIZE : Z;
  t_config : Config;
  s_initialized : bool;
  frame_counter : Z
}.

(** The static initialisers. *)
Definition initial_globals : Globals := mkGlobals 100 default_config false 0.

Definition set_global_grid_size (size : Z) (g : Globals) : Globals :=
  mkGlobals size (t_config g) (s_initialized g) (frame_counter g).

Module MuscleSystem.
(** The body of [reconfigure_all] is empty. *)
Definition reconfigure_all (g : Globals) : Globals := g.
End MuscleSystem.

Module Engine.

Definition grid_size_of (acc : Accuracy) : Z :=
  match acc with
  | Realtime => 10
  | Standard => 100
  | High => 200
  | Extreme => 1000
  end.

Definition initialize (cfg : Config) (g : Globals) : Globals :=
  if s_initialized g then g
  else
    set_global_grid_size (grid_size_of (accuracy cfg))
      (mkGlobals (GRID_SIZE g) cfg true (frame_counter g)).

Definition set_accuracy (acc : Accuracy) (g : Globals) : Globals :=
  let cfg := t_config g in
  MuscleSystem.reconfigure_all
    (mkGlobals (GRID_SIZE g)
               (mkConfig acc (features cfg) (budget cfg) (physiology cfg))
               (s_initialized g) (frame_counter g)).

Definition get_config (g : Globals) : Config := t_config g.

End Engine.

(* ================================================================= *)
(** ** systems/physiological_actor.hpp *)

Record PhysioBridge := mkBridge {
  desired_joint_torques : list float;
  cognitive_stimuli : list Stimulus;
  muscle_activations : list float;
  fatigue_factor : float
}.

Module PhysiologicalActor.

Definition TRAPEZIUS : nat := 0.
Definition RECTUS_ABDOMINIS : nat := 1.
Definition BICEPS : nat := 2.
Definition MUSCLE_COUNT : nat := 50.

Record Performance := mkPerf {
  muscle_updates : nat;
  is_thermal_throttling : bool
}.

(** The skeleton, the recorder, the frame timer and the child nodes are
    not modelled: [update] only hands them values, and nothing they do
    writes the fields kept here. *)
Record t := mk {
  muscles : list Muscle.t;
  tendons : list TendonNonlinear.t;
  metabolism : MetabolicSystem.t;
  spinal_cord : SpinalCord.t;
  mood : MoodDynamics.t;
  current_emotion : EmotionProfile.t;
  bridge : PhysioBridge;
  perf : Performance
}.

Definition initialize_human_muscles (GRID_SIZE : Z) (ms : list Muscle.t)
    (ts : list TendonNonlinear.t) : list Muscle.t * list TendonNonlinear.t :=
  let ms := <[TRAPEZIUS := Muscle.new GRID_SIZE 150]> ms in
  let ms := <[RECTUS_ABDOMINIS := Muscle.new GRID_SIZE 200]> ms in
  let ms := <[BICEPS := Muscle.new GRID_SIZE 100]> ms in
  let ms := alter (fun m => Muscle.set_attachments m
                              (Muscle.mkAttachment "spine" 0.9)
                              (Muscle.mkAttachment "scapula" 0.1))
                  TRAPEZIUS ms in
  (ms, TendonNonlinear.reset_hysteresis <$> ts).

(** The constructor, run while the grid size is [GRID_SIZE g]. *)
Definition new (libm : Libm) (g : Globals) (muscle_count : nat) : t :=
  let '(ms, ts) :=
    initialize_human_muscles (GRID_SIZE g)
      (replicate muscle_count (Muscle.new (GRID_SIZE g) 100))
      (replicate muscle_count TendonNonlinear.new) in
  mk ms ts MetabolicSystem.new
     (SpinalCord.new libm (muscle_count / 2))
     MoodDynamics.new EmotionProfile.new
     (mkBridge [] [] [] 0) (mkPerf 0 false).

Definition blend_emotions_max (base add : EmotionProfile.t) : EmotionProfile.t :=
  let bp := EmotionProfile.primary base in
  let ap := EmotionProfile.primary add in
  EmotionProfile.mk
    (EmotionProfile.mkPrimary
       (fmax (EmotionProfile.joy bp) (EmotionProfile.joy ap))
       (fmax (EmotionProfile.sadness bp) (EmotionProfile.sadness ap))
       (fmax (EmotionProfile.anger bp) (EmotionProfile.anger ap))
       (fmax (EmotionProfile.fear bp) (EmotionProfile.fear ap))
       (EmotionProfile.surprise bp) (EmotionProfile.disgust bp)
       (EmotionProfile.trust bp) (EmotionProfile.anticipation bp))
    (EmotionProfile.social base) (EmotionProfile.mood base).

(** The stimulus loop of [update]: each stimulus is appraised against a
    fresh local context and merged when its relevance exceeds 0.2. *)
Definition appraise_all (stimuli : list Stimulus) : EmotionProfile.t :=
  foldl
    (fun cur stim =>
       let ctx :=
         mkContext 0
           (<["self_esteem" := 0.8]> (<["self_efficacy" := 0.7]> ∅))
           (EmotionProfile.stress (EmotionProfile.mood cur)) in
       let result := CognitiveAppraiser.appraise stim ctx in
       if fltb 0.2 (CognitiveAppraiser.goal_relevance result)
       then blend_emotions_max cur (CognitiveAppraiser.emotion result)
       else cur)
    EmotionProfile.new stimuli.

Definition trap_activation (emotion : EmotionProfile.t) : float :=
  EmotionProfile.fear (EmotionProfile.primary emotion) * 0.7.

Definition ab_activation (emotion : EmotionProfile.t) : float :=
  EmotionProfile.sadness (EmotionProfile.primary emotion) * 0.6.

Definition apply_emotion_to_muscles (libm : Libm) (GRID_SIZE : Z)
    (ms : list Muscle.t) (emotion : EmotionProfile.t) : list Muscle.t :=
  let ms :=
    if (TRAPEZIUS <? List.length ms)%nat
    then alter (fun m => Muscle.step libm GRID_SIZE m (trap_activation emotion) 0.016)
               TRAPEZIUS ms
    else ms in
  if (RECTUS_ABDOMINIS <? List.length ms)%nat
  then alter (fun m => Muscle.step libm GRID_SIZE m (ab_activation emotion) 0.016)
             RECTUS_ABDOMINIS ms
  else ms.

(** [bridge.muscle_activations[i]].  The vector has one entry per spinal
    segment, the loop runs over the muscles; [stray i] stands for whatever
    the unchecked read finds past the end. *)
Definition activation_at (stray : nat -> float) (acts : list float) (i : nat)
    : float :=
  match acts !! i with Some x => x | None => stray i end.

Definition update_muscles_parallel (libm : Libm) (stray : nat -> float)
    (GRID_SIZE : Z) (throttling : bool) (acts : list float)
    (ms : list Muscle.t) (dt : float) : list Muscle.t :=
  for_range (List.length ms)
    (fun i ms =>
       if throttling && (i mod 4 =? 0)%nat
       then alter (fun m => Muscle.step libm GRID_SIZE m
                              (activation_at stray acts i * 0.5) dt) i ms
       else alter (fun m => Muscle.step libm GRID_SIZE m
                              (activation_at stray acts i) dt) i ms)
    ms.

Definition update_tendons (libm : Libm) (ms : list Muscle.t)
    (ts : list TendonNonlinear.t) (dt : float) : list TendonNonlinear.t :=
  for_range (Nat.min (List.length ts) (List.length ms))
    (fun i ts =>
       match ms !! i with
       | Some m =>
           alter (fun tn =>
                    let force := Muscle.get_force m in
                    let strain := force / TendonNonlinear.get_stiffness tn in
                    let strain_rate := strain / (dt + 1e-6) in
                    fst (TendonNonlinear.compute_stress libm tn strain strain_rate dt))
                 i ts
       | None => ts
       end)
    ts.

Definition update (libm : Libm) (stray : nat -> float)
    (ga : Globals * t) (dt : float) (input : PhysioBridge) : Globals * t :=
  let '(g, act) := ga in
  (* 1. appraisal *)
  let emo := appraise_all (cognitive_stimuli input) in
  (* 2. mood *)
  let mood' := MoodDynamics.update libm (mood act) dt emo in
  let emo := EmotionProfile.mk (EmotionProfile.primary emo)
               (EmotionProfile.social emo) (MoodDynamics.get_state mood') in
  (* 3. spinal reflex *)
  let cord := SpinalCord.set_emotional_modulation (spinal_cord act)
                (EmotionProfile.fear (EmotionProfile.primary emo)) in
  let cord := SpinalCord.step cord (desired_joint_torques input) dt in
  let acts := SpinalCord.get_muscle_activations cord in
  (* 4. emotion overrides, 5. muscle dynamics *)
  let ms := apply_emotion_to_muscles libm (GRID_SIZE g) (muscles act) emo in
  let ms := update_muscles_parallel libm stray (GRID_SIZE g)
              (is_thermal_throttling (perf act)) acts ms dt in
  (* 6. tendon hysteresis *)
  let ts := if enable_hysteresis (features (Engine.get_config g))
            then update_tendons libm ms (tendons act) dt
            else tendons act in
  (* 7. metabolism, every fourth frame *)
  let fc := (frame_counter g + 1)%Z in
  let met := if (Z.rem fc 4 =? 0)%Z
             then MetabolicSystem.update libm (metabolism act)
                    (foldl Qplus 0 acts) (dt * 4)
             else metabolism act in
  (mkGlobals (GRID_SIZE g) (t_config g) (s_initialized g) fc,
   mk ms ts met cord mood' emo
      (mkBridge (desired_joint_torques (bridge act))
                (cognitive_stimuli (bridge act))
                acts
                (MetabolicSystem.get_fatigue_factor met))
      (mkPerf (List.length ms) (is_thermal_throttling (perf act)))).

(** The bridge inputs [on_evaluate] builds from the context. *)
Definition torques_of (ctx : AnimationContext) : list float :=
  match parameters ctx !! "desired_torques" with
  | Some v => resize 1 v []
  | None => []
  end.

Definition stimuli_of (ctx : AnimationContext) : list Stimulus :=
  match parameters ctx !! "threat_distance" with
  | Some d =>
      [mkStimulus "threat" (1 / (d + 1)) (mkVec3 0 0 0)
                  (default 0.5 (parameters ctx !! "threat_urgency"))
                  0.5 0.5]
  | None => []
  end.

Definition on_evaluate (libm : Libm) (stray : nat -> float)
    (ga : Globals * t) (ctx : AnimationContext) : Globals * t :=
  let '(g, act) := ga in
  let br := mkBridge (torques_of ctx) (stimuli_of ctx)
              (muscle_activations (bridge act)) (fatigue_factor (bridge act)) in
  let act := mk (muscles act) (tendons act) (metabolism act) (spinal_cord act)
                (mood act) (current_emotion act) br (perf act) in
  update libm stray (g, act) (delta_time ctx) br.

End PhysiologicalActor.

(* ================================================================= *)
(** ** A rational <cmath> for running the model

    [libm_q] evaluates [exp], [pow] and [cos] on rationals, rounded to 64
    binary digits after the point.  It is used to run the model on concrete
    inputs; no general theorem below depends on it. *)

Module LibmQ.

Definition rnd (x : Q) : Q := Qfloor (x * inject_Z (2 ^ 64)) # (2 ^ 64).

(** Number of halvings that bring [x] into [-1/2, 1/2]. *)
Definition halvings (x : Q) : nat :=
  Z.to_nat (Z.log2_up (Qceiling (Qabs x)) + 1).

Definition scale_down (x : Q) (h : nat) : Q :=
  rnd (x / inject_Z (2 ^ Z.of_nat h)).

(** Partial sums of [sum r^j / j!], from the term of index [j]. *)
Fixpoint exp_series (deg : nat) (r : Q) (j : positive) (term acc : Q) : Q :=
  match deg with
  | O => acc
  | S d =>
      let term := rnd (term * r / inject_Z (Z.pos j)) in
      exp_series d r (Pos.succ j) term (rnd (acc + term))
  end.

Definition exp_q (x : Q) : Q :=
  let h := halvings x in
  Nat.iter h (fun y => rnd (y * y)) (exp_series 20 (scale_down x h) 1 1 1).

(** Partial sums of [sum (-1)^j r^(2j) / (2j)!]. *)
Fixpoint cos_series (deg : nat) (r2 : Q) (j : positive) (term acc : Q) : Q :=
  match deg with
  | O => acc
  | S d =>
      let term := rnd (- term * r2 / inject_Z (Z.pos (j * (j + 1)))) in
      cos_series d r2 (j + 2) term (rnd (acc + term))
  end.

Definition cos_q (x : Q) : Q :=
  let h := halvings x in
  let r := scale_down x h in
  Nat.iter h (fun c => rnd (2 * c * c - 1)) (cos_series 12 (r * r) 1 1 1).

(** Partial sums of [sum z^(2j+1) / (2j+1)], the series of [atanh]. *)
Fixpoint atanh_series (deg : nat) (z2 : Q) (j : positive) (pw acc : Q) : Q :=
  match deg with
  | O => acc
  | S d =>
      let pw := rnd (pw * z2) in
      atanh_series d z2 (j + 2) pw (rnd (acc + pw / inject_Z (Z.pos (j + 2))))
  end.

Definition atanh_q (z : Q) : Q :=
  atanh_series 24 (rnd (z * z)) 1 (rnd z) (rnd z).

Definition ln2_q : Q := 2 * atanh_q (1 # 3).

(** [ln x] for [x > 0]: split off the binary exponent, then [2 atanh]. *)
Definition ln_q (x : Q) : Q :=
  let e := (Z.log2 (Qnum x) - Z.log2 (Z.pos (Qden x)))%Z in
  let m := x / (if (0 <=? e)%Z then inject_Z (2 ^ e) else / inject_Z (2 ^ (- e))) in
  rnd (inject_Z e * ln2_q + 2 * atanh_q ((m - 1) / (m + 1))).

(** [pow(x, y)] for [x >= 0] and [y > 0]; [pow(0, y)] is 0. *)
Definition pow_q (x y : Q) : Q :=
  if Qle_bool x 0 then 0 else exp_q (rnd (y * ln_q x)).

End LibmQ.

Definition libm_q : Libm := mkLibm LibmQ.exp_q LibmQ.pow_q LibmQ.cos_q.

(** Concrete inputs used by the examples. *)

(** A freshly constructed pool told to drive at full strength. *)
Definition driven_pool : MotorNeuronPool.t :=
  MotorNeuronPool.set_central_drive (MotorNeuronPool.new libm_q) 1.

(** The frame of scenario 1: a threat at distance 0.25 with urgency 0.9. *)
Definition threat_ctx : AnimationContext :=
  mkContext 0.016
    (<["threat_urgency" := 0.9]> (<["threat_distance" := 0.25]> ∅)) 0.

(** The stimulus [on_evaluate] derives from [threat_ctx]. *)
Definition threat_stimulus : Stimulus :=
  mkStimulus "threat" 0.8 (mkVec3 0 0 0) 0.9 0.5 0.5.

(** A fully unfamiliar threat at full intensity. *)
Definition unfamiliar_threat : Stimulus :=
  mkStimulus "threat" 1 (mkVec3 0 0 0) 1 0 0.5.

(** The local context [update] appraises against, carrying [stress]. *)
Definition appraisal_ctx (stress : float) : AnimationContext :=
  mkContext 0 (<["self_esteem" := 0.8]> (<["self_efficacy" := 0.7]> ∅)) stress.

Definition stray0 : nat -> float := fun _ => 0.

(** The actor built with default arguments right after program start. *)
Definition default_actor (libm : Libm) : PhysiologicalActor.t :=
  PhysiologicalActor.new libm initial_globals PhysiologicalActor.MUSCLE_COUNT.

(** The update of section 4.1 read as one simultaneous assignment: every
    bin is computed from the distribution [n0] the step started with,
    [n_i <- clamp(n_i + dt (f (1 - n_i) - g n_i - c_i), 0, 1)] with
    [c_i = v_rel (n_{i+1} - n_{i-1}) / (2 dx)] and the neighbour indices
    clipped to the grid. *)
Definition simultaneous_update (libm : Libm) (GRID_SIZE : Z)
    (p : HuxleyFiber.Params) (activation v_rel dt : float) (n0 : list float)
    : list float :=
  imap
    (fun i ni =>
       let x := HuxleyFiber.bin_x GRID_SIZE i in
       let c := v_rel * (rd n0 (HuxleyFiber.i_right GRID_SIZE i)
                         - rd n0 (HuxleyFiber.i_left i)) / (2 * HuxleyFiber.DX) in
       fclamp (ni + dt * (HuxleyFiber.rate_f libm p x activation * (1 - ni)
                          - HuxleyFiber.rate_g p x v_rel * ni - c)) 0 1)
    n0.

(** A sequence of [compute_stress] calls, results discarded. *)
Definition run_stress_calls (libm : Libm) (tn : TendonNonlinear.t)
    (calls : list (float * float * float)) : TendonNonlinear.t :=
  foldl (fun tn '(strain, strain_rate, dt) =>
           fst (TendonNonlinear.compute_stress libm tn strain strain_rate dt))
        tn calls.

(** A fiber with a single fully attached bin, on the ten-bin grid. *)
Definition one_hot_fiber : HuxleyFiber.t :=
  HuxleyFiber.mk [1; 0; 0; 0; 0; 0; 0; 0; 0; 0] HuxleyFiber.default_params 0.

(** The reward stimulus and baseline context of scenario 6. *)
Definition reward_stimulus : Stimulus :=
  mkStimulus "reward" 0.5 (mkVec3 0 0 0) 0.5 1 0.8.

Definition baseline_ctx : AnimationContext := mkContext 0 ∅ 0.

(** The host calling [on_evaluate] once per frame. *)
Definition run_frames (libm : Libm) (stray : nat -> float)
    (ga : Globals * PhysiologicalActor.t) (ctxs : list AnimationContext)
    : Globals * PhysiologicalActor.t :=
  foldl (PhysiologicalActor.on_evaluate libm stray) ga ctxs.

(** No neuron of the pool, segment or cord is firing. *)
Definition pool_silent (p : MotorNeuronPool.t) : Prop :=
  Forall (fun n => MotorNeuronPool.firing_rate n = 0) (MotorNeuronPool.neurons p).

Definition segment_silent (s : SpinalSegment.t) : Prop :=
  pool_silent (SpinalSegment.flexor s) /\ pool_silent (SpinalSegment.extensor s).

Definition cord_silent (c : SpinalCord.t) : Prop :=
  Forall segment_silent (SpinalCord.segments c).

(** The actor's cord has 25 segments and none of its pools is firing. *)
Definition quiet (act : PhysiologicalActor.t) : Prop :=
  length (SpinalCord.segments (PhysiologicalActor.spinal_cord act)) = 25%nat
  /\ cord_silent (PhysiologicalActor.spinal_cord act).

(* ================================================================= *)
(** ** Further members of the modelled classes *)

(** [EmotionProfile::pleasure], [arousal], [dominance] and [to_vector].
    The array has 30 slots and 23 initialisers; aggregate initialisation
    zero-fills the rest. *)
Module EmotionVector.
Import EmotionProfile.

Definition pleasure (e : EmotionProfile.t) : float := valence (mood e).

Definition arousal (e : EmotionProfile.t) : float :=
  joy (primary e) * 0.3 + anger (primary e) * 0.8 + fear (primary e) * 0.9
  + EmotionProfile.arousal (mood e).

Definition dominance (e : EmotionProfile.t) : float :=
  (anger (primary e) * 0.7 + trust (primary e) * 0.5)
  - (fear (primary e) * 0.8 + sadness (primary e) * 0.6).

Definition to_vector (e : EmotionProfile.t) : list float :=
  [joy (primary e); sadness (primary e); anger (primary e); fear (primary e);
   surprise (primary e); disgust (primary e); trust (primary e);
   anticipation (primary e);
   guilt (social e); shame (social e); pride (social e); envy (social e);
   gratitude (social e); love (social e); hate (social e); anxiety (social e);
   depression (mood e); stress (mood e); valence (mood e);
   EmotionProfile.arousal (mood e);
   pleasure e; arousal e; dominance e]
  ++ replicate 7 0.

End EmotionVector.

(** [MetabolicSystem::get_recovery_time]. *)
Definition get_recovery_time (s : MetabolicSystem.t) : float :=
  let pcr_deficit := (1 - MetabolicSystem.PCr s) / (MetabolicSystem.k_CK * 0.1) in
  let lactate_clear := MetabolicSystem.lactate s / MetabolicSystem.k_LactateClearance in
  fmax pcr_deficit lactate_clear.

(* ================================================================= *)
(** ** aino_animation.hpp: the pose buffer *)

(** The four lanes of an [__m128], lane 0 first. *)
Definition m128 : Type := float * float * float * float.
Definition lane0 (v : m128) : float := fst (fst (fst v)).

Module PoseBuffer.

Record t := mk { rotation_z : list float; bone_count : nat }.

Definition new (bones : nat) : t := mk (replicate bones 0) bones.

(** An index at or past [bone_count] returns before the store; otherwise
    lane 0 goes to [rotation_z[bone_index]]. *)
Definition write_bone_channel (pb : t) (bone_index : nat) (channel : string)
    (value : m128) : t :=
  if (bone_count pb <=? bone_index)%nat then pb
  else mk (<[bone_index := lane0 value]> (rotation_z pb)) (bone_count pb).

End PoseBuffer.

(* ================================================================= *)
(** ** biology/multibody.hpp *)

Definition vadd (u v : Vec3) : Vec3 := mkVec3 (vx u + vx v) (vy u + vy v) (vz u + vz v).
Definition vscale (u : Vec3) (k : float) : Vec3 := mkVec3 (vx u * k) (vy u * k) (vz u * k).
Definition cross (u v : Vec3) : Vec3 :=
  mkVec3 (vy u * vz v - vz u * vy v)
         (vz u * vx v - vx u * vz v)
         (vx u * vy v - vy u * vx v).

(** Apply a per-axis computation to the three axes. *)
Definition per_axis (f : (Vec3 -> float) -> float) : Vec3 :=
  mkVec3 (f vx) (f vy) (f vz).

Module BallJoint.

Record Capsule := mkCapsule {
  damping : float;
  stiffness : float;
  friction : float;
  rest_angle : Vec3;
  limit_min : Vec3;
  limit_max : Vec3
}.

Definition default_capsule : Capsule :=
  mkCapsule 2.5 100 1 (mkVec3 0 0 0)
            (mkVec3 (-2.8) (-1.5) (-0.8)) (mkVec3 2.8 1.5 0.8).

Record t := mk {
  angle : Vec3;
  velocity : Vec3;
  torque : Vec3;
  capsule : Capsule
}.

Definition new : t :=
  mk (mkVec3 0 0 0) (mkVec3 0 0 0) (mkVec3 0 0 0) default_capsule.

(** The elastic torque of one axis: the linear spring, plus a cubic term
    for each limit the angle is beyond. *)
Definition elastic_axis (j : t) (ax : Vec3 -> float) : float :=
  let delta := ax (angle j) - ax (rest_angle (capsule j)) in
  let e := stiffness (capsule j) * delta in
  let e := if fltb (ax (angle j)) (ax (limit_min (capsule j)))
           then let violation := ax (angle j) - ax (limit_min (capsule j)) in
                e + 500 * violation * violation * violation
           else e in
  if fltb (ax (limit_max (capsule j))) (ax (angle j))
  then let violation := ax (angle j) - ax (limit_max (capsule j)) in
       e + 500 * violation * violation * violation
  else e.

Definition friction_axis (j : t) (muscle_torque : Vec3) (ax : Vec3 -> float) : float :=
  if fltb (Qabs (ax (velocity j))) 0.01
  then fclamp (ax muscle_torque) (- friction (capsule j)) (friction (capsule j))
  else - friction (capsule j) * (if fltb 0 (ax (velocity j)) then 1 else -1).

Definition compute_torque (j : t) (muscle_torque external_force : Vec3)
    (lever_arm_length dt : float) : t :=
  let elastic := per_axis (elastic_axis j) in
  let viscous := vscale (velocity j) (- damping (capsule j)) in
  let friction := per_axis (friction_axis j muscle_torque) in
  let external_torque :=
    mkVec3 (vy external_force * lever_arm_length - vz external_force * lever_arm_length)
           (vz external_force * lever_arm_length - vx external_force * lever_arm_length)
           (vx external_force * lever_arm_length - vy external_force * lever_arm_length) in
  mk (angle j) (velocity j)
     (vadd (vadd (vadd (vadd muscle_torque elastic) viscous) friction) external_torque)
     (capsule j).

(** One axis of the integration: velocity first, then the clamped angle.
    The quotient [torque / inertia] is read for [inertia] other than 0: there
    the float division of the source leaves the finite numbers, which the
    rationals do not follow, so the properties below assume it. *)
Definition integrate_velocity (j : t) (inertia dt : float) (ax : Vec3 -> float) : float :=
  let angular_acc := ax (torque j) / inertia in
  (ax (velocity j) + angular_acc * dt) * 0.999.

Definition integrate_angle (j : t) (inertia dt : float) (ax : Vec3 -> float) : float :=
  fclamp (ax (angle j) + integrate_velocity j inertia dt ax * dt)
         (ax (limit_min (capsule j))) (ax (limit_max (capsule j))).

Definition forward_dynamics (j : t) (inertia dt : float) : t :=
  mk (per_axis (integrate_angle j inertia dt))
     (per_axis (integrate_velocity j inertia dt))
     (torque j) (capsule j).

Definition get_angle (j : t) : Vec3 := angle j.
Definition get_velocity (j : t) : Vec3 := velocity j.

End BallJoint.

Module ArticulatedSkeleton.

Definition SPINE : nat := 0.
Definition SHOULDER : nat := 1.
Definition JOINT_COUNT : nat := 23.

Record t := mk {
  joints : list BallJoint.t;
  inertia : list float;
  external_forces : list Vec3;
  lever_arm : float
}.

Definition set_capsule (c : BallJoint.Capsule) (j : BallJoint.t) : BallJoint.t :=
  BallJoint.mk (BallJoint.angle j) (BallJoint.velocity j) (BallJoint.torque j) c.

Definition new (joint_count : nat) : t :=
  let js := replicate joint_count BallJoint.new in
  let js := alter (fun j =>
                     let c := BallJoint.capsule j in
                     set_capsule (BallJoint.mkCapsule (BallJoint.damping c) 150
                                    (BallJoint.friction c) (BallJoint.rest_angle c)
                                    (BallJoint.limit_min c) (BallJoint.limit_max c)) j)
                  SPINE js in
  let js := alter (fun j =>
                     let c := BallJoint.capsule j in
                     set_capsule (BallJoint.mkCapsule (BallJoint.damping c)
                                    (BallJoint.stiffness c) (BallJoint.friction c)
                                    (BallJoint.rest_angle c)
                                    (mkVec3 (-2) (-1) (-0.5)) (mkVec3 0.5 1 0.5)) j)
                  SHOULDER js in
  mk js (replicate joint_count 1) (replicate joint_count (mkVec3 0 0 0)) 0.1.

(** [ext_forces[i]], an unchecked read; [stray_force i] stands for what it
    finds past the end of the vector. *)
Definition force_at (stray_force : nat -> Vec3) (ext_forces : list Vec3) (i : nat) : Vec3 :=
  match ext_forces !! i with Some f => f | None => stray_force i end.

(** The torque the quasi-static balance asks of joint [i]. *)
Definition torque_required (sk : t) (stray_force : nat -> Vec3)
    (ext_forces : list Vec3) (i : nat) : Vec3 :=
  let gravity := mkVec3 0 (-9.81) 0 in
  let torque_gravity := cross (vscale gravity 10) (mkVec3 (lever_arm sk) 0 0) in
  let torque_external :=
    cross (force_at stray_force ext_forces i) (mkVec3 (lever_arm sk) 0 0) in
  vadd torque_gravity torque_external.

Definition inverse_dynamics (sk : t) (stray_force : nat -> Vec3)
    (joint_angles joint_velocities ext_forces : list Vec3) : list float :=
  for_range (Nat.min (length (joints sk)) (length joint_angles))
    (fun i muscle_forces =>
       let req := torque_required sk stray_force ext_forces i in
       if (i * 2 + 1 <? length muscle_forces)%nat
       then <[(i * 2 + 1)%nat := fmax 0 (- vz req / lever_arm sk)]>
              (<[(i * 2)%nat := fmax 0 (vz req / lever_arm sk)]> muscle_forces)
       else muscle_forces)
    (replicate (length (joints sk) * 2) 0).

Definition set_external_force (sk : t) (joint_index : nat) (force : Vec3) : t :=
  if (joint_index <? length (external_forces sk))%nat
  then mk (joints sk) (inertia sk)
          (<[joint_index := force]> (external_forces sk)) (lever_arm sk)
  else sk.

Definition get_joint_angles (sk : t) : list Vec3 :=
  BallJoint.get_angle <$> joints sk.

End ArticulatedSkeleton.

(* ================================================================= *)
(** ** systems/data_recorder.hpp: the sample buffer *)

Record TrainingSample := mkSample {
  timestamp : float;
  emotion_vector : list float;
  metabolism_state : list float;
  sample_activations : list float;
  pose_quantized : list Z
}.

(** The members the buffering logic reads and writes.  [emotion_dset] is the
    dataset handle (negative while no session is open); the HDF5 calls
    themselves are outside the model, only their effect on [current_row]
    is kept. *)
Module DataRecorder.

Definition BUFFER_SIZE : nat := 1024.

Record t := mk {
  buffer : list TrainingSample;
  emotion_dset : Z;
  current_row : nat
}.

Definition new : t := mk [] (-1) 0.

Definition flush_to_disk (r : t) : t :=
  match buffer r with
  | [] => r
  | _ :: _ =>
      if (emotion_dset r <? 0)%Z then r
      else mk (buffer r) (emotion_dset r) (current_row r + length (buffer r))
  end.

Definition record_frame (r : t) (sample : TrainingSample) : t :=
  let r := mk (buffer r ++ [sample]) (emotion_dset r) (current_row r) in
  if (BUFFER_SIZE <=? length (buffer r))%nat
  then let r := flush_to_disk r in mk [] (emotion_dset r) (current_row r)
  else r.

End DataRecorder.

(* ================================================================= *)
(** ** Runs and predicates used by the further properties *)

(** A segment stepped once per entry of [inputs]: desired torque, joint
    angle, joint velocity and dt. *)
Definition run_segment_steps (s : SpinalSegment.t)
    (inputs : list (float * float * float * float)) : SpinalSegment.t :=
  foldl (fun s '(tq, th, om, dt) => SpinalSegment.step s tq th om dt) s inputs.

(** The pool has its [N_NEURONS] neurons and none has a negative rate. *)
Definition pool_regular (p : MotorNeuronPool.t) : Prop :=
  length (MotorNeuronPool.neurons p) = MotorNeuronPool.N_NEURONS
  /\ Forall (fun n => 0 <= MotorNeuronPool.firing_rate n) (MotorNeuronPool.neurons p).
(** [MetabolicSystem::update] called once per entry of [calls]: muscle
    activation and dt. *)
Definition run_metabolism (libm : Libm) (s : MetabolicSystem.t)
    (calls : list (float * float)) : MetabolicSystem.t :=
  foldl (fun s '(activation, dt) => MetabolicSystem.update libm s activation dt)
        s calls.
(** A frame context carrying only a threat at distance 2. *)
Definition far_threat_ctx : AnimationContext :=
  mkContext 0.016 (<["threat_distance" := 2]> ∅) 0.

(** The globals after initialising the engine with hysteresis switched off. *)
Definition no_hysteresis_globals : Globals :=
  Engine.initialize
    (mkConfig Standard (mkFeatures true true true false true false)
              (mkBudget 3 1 100) (mkHuman 0.5 0.7 25))
    initial_globals.

(** What the actor's stimulus loop cannot write: it starts from the zero
    profile and merges through [blend_emotions_max] only. *)
Definition blend_limited (e : EmotionProfile.t) : Prop :=
  EmotionProfile.social e = EmotionProfile.Social0
  /\ EmotionProfile.mood e = EmotionProfile.Mood0
  /\ EmotionProfile.surprise (EmotionProfile.primary e) = 0
  /\ EmotionProfile.disgust (EmotionProfile.primary e) = 0
  /\ EmotionProfile.trust (EmotionProfile.primary e) = 0
  /\ EmotionProfile.anticipation (EmotionProfile.primary e) = 0.

(** The actor's ATP and PCr stores are full. *)
Definition stores_full (act : PhysiologicalActor.t) : Prop :=
  MetabolicSystem.ATP (PhysiologicalActor.metabolism act) == 1
  /\ MetabolicSystem.PCr (PhysiologicalActor.metabolism act) == 1.

(** The three axes of a capsule have their limits in order. *)
Definition limits_ordered (c : BallJoint.Capsule) : Prop :=
  vx (BallJoint.limit_min c) <= vx (BallJoint.limit_max c)
  /\ vy (BallJoint.limit_min c) <= vy (BallJoint.limit_max c)
  /\ vz (BallJoint.limit_min c) <= vz (BallJoint.limit_max c).

(** The three angles of a joint lie within its capsule limits. *)
Definition within_limits (j : BallJoint.t) : Prop :=
  let c := BallJoint.capsule j in
  vx (BallJoint.limit_min c) <= vx (BallJoint.angle j) <= vx (BallJoint.limit_max c)
  /\ vy (BallJoint.limit_min c) <= vy (BallJoint.angle j) <= vy (BallJoint.limit_max c)
  /\ vz (BallJoint.limit_min c) <= vz (BallJoint.angle j) <= vz (BallJoint.limit_max c).

(** The muscle-force vector pairs a flexor (slot 2i) with an extensor
    (slot 2i+1); in a balanced vector no force is negative and no pair pulls
    both ways. *)
Definition pairs_balanced (muscle_forces : list float) : Prop :=
  forall i : nat,
    0 <= rd muscle_forces (i * 2) /\ 0 <= rd muscle_forces (i * 2 + 1)
    /\ (rd muscle_forces (i * 2) = 0 \/ rd muscle_forces (i * 2 + 1) = 0).

(** The shoulder joint as the skeleton's constructor sets it up. *)
Definition shoulder_joint : BallJoint.t :=
  ArticulatedSkeleton.set_capsule
    (BallJoint.mkCapsule 2.5 100 1 (mkVec3 0 0 0)
       (mkVec3 (-2) (-1) (-0.5)) (mkVec3 0.5 1 0.5))
    BallJoint.new.

(** The host filling a pose buffer: one [write_bone_channel] per entry. *)
Definition run_writes (pb : PoseBuffer.t) (writes : list (nat * m128)) : PoseBuffer.t :=
  foldl (fun pb '(i, v) => PoseBuffer.write_bone_channel pb i "rotation" v) pb writes.

(** The recorder fed one sample after another. *)
Definition run_records (r : DataRecorder.t) (samples : list TrainingSample)
    : DataRecorder.t :=
  foldl DataRecorder.record_frame r samples.

(* ================================================================= *)
(** * Properties *)

Lemma fltb_lt (a b : float) : fltb a b = true <-> a < b.
Proof.
  unfold fltb. rewrite negb_true_iff, <- not_true_iff_false, Qle_bool_iff.
  split; [apply Qnot_le_lt | apply Qlt_not_le].
Qed.

Lemma fleb_le (a b : float) : fleb a b = true <-> a <= b.
Proof. apply Qle_bool_iff. Qed.

(* ----------------------------------------------------------------- *)
(** ** Loops *)

Lemma for_range_S {S : Type} (n : nat) (body : nat -> S -> S) (s : S) :
  for_range (Datatypes.S n) body s = body n (for_range n body s).
Proof. unfold for_range. rewrite seq_S, foldl_app. reflexivity. Qed.

(** A loop that rewrites slot [i] in iteration [i] has rewritten exactly the
    slots below its bound. *)
Lemma for_range_alter_lookup {A : Type} (f : nat -> A -> A) (l : list A) (n j : nat) :
  for_range n (fun i v => alter (f i) i v) l !! j
  = if decide (j < n)%nat then f j <$> l !! j else l !! j.
Proof.
  induction n as [|n IH].
  - reflexivity.
  - rewrite for_range_S.
    destruct (decide (j = n)) as [->|Hne].
    + rewrite list_lookup_alter_eq, IH.
      destruct (decide (n < n)%nat); [lia|].
      destruct (decide (n < Datatypes.S n)%nat); [reflexivity|lia].
    + rewrite list_lookup_alter_ne, IH by congruence.
      destruct (decide (j < n)%nat), (decide (j < Datatypes.S n)%nat);
        try reflexivity; lia.
Qed.

Lemma for_range_alter_length {A : Type} (f : nat -> A -> A) (l : list A) (n : nat) :
  length (for_range n (fun i v => alter (f i) i v) l) = length l.
Proof.
  induction n as [|n IH]; [reflexivity|].
  rewrite for_range_S, length_alter. exact IH.
Qed.

(* ----------------------------------------------------------------- *)
(** ** Motor-neuron pool *)

Section MotorNeuron.
Import MotorNeuronPool.

Lemma step_lookup (p : t) (dt : float) (i : nat) :
  (i < N_NEURONS)%nat ->
  neurons (step p dt) !! i = step_neuron (total_drive p) dt <$> neurons p !! i.
Proof.
  intros Hi. unfold step. cbn [neurons].
  rewrite (for_range_alter_lookup (fun _ => step_neuron (total_drive p) dt)).
  destruct (decide (i < N_NEURONS)%nat); [reflexivity|contradiction].
Qed.

(** A neuron that enters the iteration inside its refractory period takes
    the silent branch. *)
Lemma step_neuron_refractory (td dt : float) (n : Neuron) :
  0 < after_hyperpolarization n -> firing_rate (step_neuron td dt n) = 0.
Proof.
  intros Hpos. unfold step_neuron.
  destruct (fleb (after_hyperpolarization n) 0) eqn:Hle.
  - apply fleb_le in Hle. lra.
  - rewrite andb_false_r. reflexivity.
Qed.

(** The two branches of the iteration: silent, or fired with the timer
    re-armed. *)
Lemma step_neuron_cases (td dt : float) (n : Neuron) :
  firing_rate (step_neuron td dt n) = 0
  \/ after_hyperpolarization (step_neuron td dt n) = 0.2.
Proof.
  unfold step_neuron.
  destruct (fltb 0 (td - recruitment_threshold n)
            && fleb (after_hyperpolarization n) 0); [right|left]; reflexivity.
Qed.

End MotorNeuron.

(** C1 (as amended).  After [MotorNeuronPool::step(dt)], a neuron whose
    after-hyperpolarization timer was strictly positive when the call began
    has firing rate 0; and a neuron leaves the call either with firing rate 0
    or having fired in it, its timer freshly set to 0.2. *)
Theorem C1_refractory_neuron_is_silent
    (p : MotorNeuronPool.t) (dt : float) (i : nat)
    (n n' : MotorNeuronPool.Neuron) :
  (i < MotorNeuronPool.N_NEURONS)%nat ->
  MotorNeuronPool.neurons p !! i = Some n ->
  MotorNeuronPool.neurons (MotorNeuronPool.step p dt) !! i = Some n' ->
  (0 < MotorNeuronPool.after_hyperpolarization n ->
   MotorNeuronPool.firing_rate n' = 0)
  /\ (MotorNeuronPool.firing_rate n' = 0
      \/ MotorNeuronPool.after_hyperpolarization n' = 0.2).
Proof.
  intros Hi Hn Hn'.
  rewrite step_lookup, Hn in Hn' by exact Hi.
  injection Hn' as <-.
  split.
  - apply step_neuron_refractory.
  - apply step_neuron_cases.
Qed.

(** Neuron 0 of a driven pool fires in the first step and is silent in the
    second, which it enters with its timer at 0.2. *)
Lemma C1_refractory_neuron_is_silent_witness :
  exists n n',
    MotorNeuronPool.neurons (MotorNeuronPool.step driven_pool 0.016) !! 0%nat = Some n
    /\ MotorNeuronPool.neurons
         (MotorNeuronPool.step (MotorNeuronPool.step driven_pool 0.016) 0.016) !! 0%nat
       = Some n'
    /\ 0 < MotorNeuronPool.after_hyperpolarization n
    /\ MotorNeuronPool.firing_rate n' = 0.
Proof.
  eexists. eexists.
  split; [vm_compute; reflexivity|].
  split; [vm_compute; reflexivity|].
  split; [reflexivity|].
  refine (proj1 (C1_refractory_neuron_is_silent
                   (MotorNeuronPool.step driven_pool 0.016) 0.016 0 _ _ _ _ _) _).
  - unfold MotorNeuronPool.N_NEURONS. lia.
  - vm_compute. reflexivity.
  - vm_compute. reflexivity.
  - reflexivity.
Defined.

(** C1 (as stated) fails: after the first step of a driven pool, neuron 0
    has its timer at 0.2 and fires at 50 Hz. *)
Lemma C1_fired_neuron_counterexample :
  exists n,
    MotorNeuronPool.neurons (MotorNeuronPool.step driven_pool 0.016) !! 0%nat = Some n
    /\ 0 < MotorNeuronPool.after_hyperpolarization n
    /\ MotorNeuronPool.firing_rate n == 50
    /\ ~ MotorNeuronPool.firing_rate n == 0.
Proof.
  eexists. split; [vm_compute; reflexivity|].
  split; [reflexivity|].
  split; [reflexivity|].
  intros H. discriminate H.
Qed.

(* ----------------------------------------------------------------- *)
(** ** Spinal cord *)

(** The two ways out of [SpinalCord::step]: the sizes agree and the segment
    loop runs, or they differ and the cord comes back as it went in. *)
Lemma step_guard (c : SpinalCord.t) (desired_torques : list float) (dt : float) :
  (length desired_torques = length (SpinalCord.segments c)
   /\ length (SpinalCord.segments (SpinalCord.step c desired_torques dt))
      = length (SpinalCord.segments c))
  \/ (length desired_torques <> length (SpinalCord.segments c)
      /\ SpinalCord.step c desired_torques dt = c).
Proof.
  unfold SpinalCord.step.
  destruct (Nat.eqb_spec (length desired_torques) (length (SpinalCord.segments c)))
    as [Heq|Hne]; cbn [negb].
  - left. split; [exact Heq|]. cbn [SpinalCord.segments].
    apply (for_range_alter_length
             (fun i s => SpinalSegment.step s (default 0 (desired_torques !! i)) 0 0 dt)).
  - right. split; [exact Hne|reflexivity].
Qed.

(** C8.  When the desired-torques vector and the cord disagree on the number
    of segments, [SpinalCord::step] returns the cord it was given: every pool
    of every segment is as before. *)
Theorem C8_step_length_mismatch_is_noop
    (c : SpinalCord.t) (desired_torques : list float) (dt : float) :
  length desired_torques <> length (SpinalCord.segments c) ->
  SpinalCord.step c desired_torques dt = c.
Proof.
  intros Hne.
  destruct (step_guard c desired_torques dt) as [[Heq _]|[_ Hsame]].
  - contradiction.
  - exact Hsame.
Qed.

(** A five-segment cord handed a single torque. *)
Lemma C8_step_length_mismatch_is_noop_witness :
  SpinalCord.step (SpinalCord.new libm_q 5) [1] 0.016 = SpinalCord.new libm_q 5.
Proof.
  apply C8_step_length_mismatch_is_noop.
  unfold SpinalCord.new. cbn [SpinalCord.segments].
  rewrite length_replicate. cbn. lia.
Defined.

Section SilentCord.
Variable libm : Libm.

Lemma new_pool_silent : pool_silent (MotorNeuronPool.new libm).
Proof.
  unfold pool_silent, MotorNeuronPool.new. cbn [MotorNeuronPool.neurons].
  apply Forall_lookup. intros i x Hx.
  rewrite for_range_alter_lookup in Hx.
  destruct (decide (i < MotorNeuronPool.N_NEURONS)%nat).
  - destruct (replicate _ _ !! i) as [y|] eqn:Hy; [|discriminate].
    apply lookup_replicate in Hy as [-> _].
    injection Hx as <-. reflexivity.
  - apply lookup_replicate in Hx as [-> _]. reflexivity.
Qed.

Lemma new_cord_silent (k : nat) : cord_silent (SpinalCord.new libm k).
Proof.
  unfold cord_silent, SpinalCord.new. cbn [SpinalCord.segments].
  apply Forall_replicate. split; apply new_pool_silent.
Qed.

End SilentCord.

Lemma modulation_keeps_silent (c : SpinalCord.t) (fear : float) :
  cord_silent c -> cord_silent (SpinalCord.set_emotional_modulation c fear).
Proof.
  unfold cord_silent, SpinalCord.set_emotional_modulation.
  cbn [SpinalCord.segments]. intros H.
  apply Forall_fmap. eapply Forall_impl; [exact H|].
  intros s [Hf He]. split; assumption.
Qed.

Lemma modulation_keeps_length (c : SpinalCord.t) (fear : float) :
  length (SpinalCord.segments (SpinalCord.set_emotional_modulation c fear))
  = length (SpinalCord.segments c).
Proof. unfold SpinalCord.set_emotional_modulation. cbn. apply length_fmap. Qed.

Lemma silent_sum (ns : list MotorNeuronPool.Neuron) (acc : float) :
  Forall (fun n => MotorNeuronPool.firing_rate n = 0) ns ->
  foldl (fun sum n => sum + MotorNeuronPool.firing_rate n) acc ns == acc.
Proof.
  intros H. revert acc. induction H as [|n ns Hn _ IH]; intros acc.
  - reflexivity.
  - cbn [foldl]. rewrite IH, Hn. ring.
Qed.

Lemma silent_pool_average (p : MotorNeuronPool.t) :
  pool_silent p -> MotorNeuronPool.get_average_firing_rate p == 0.
Proof.
  intros H. unfold MotorNeuronPool.get_average_firing_rate.
  rewrite (silent_sum _ 0 H). reflexivity.
Qed.

Lemma silent_cord_activations (c : SpinalCord.t) :
  cord_silent c ->
  Forall (fun x => x == 0) (SpinalCord.get_muscle_activations c).
Proof.
  unfold cord_silent, SpinalCord.get_muscle_activations. intros H.
  apply Forall_fmap. eapply Forall_impl; [exact H|].
  intros s [Hf He]. cbn. unfold SpinalSegment.get_net_activation.
  rewrite (silent_pool_average _ Hf), (silent_pool_average _ He). ring.
Qed.

(* ----------------------------------------------------------------- *)
(** ** The actor's frame *)

Section Frame.
Import PhysiologicalActor.
Variable libm : Libm.
Variable stray : nat -> float.

(** What one frame leaves in the fields the claims read. *)
Lemma on_evaluate_emotion (g : Globals) (act : t) (ctx : AnimationContext) :
  current_emotion (snd (on_evaluate libm stray (g, act) ctx))
  = let emo := appraise_all (stimuli_of ctx) in
    EmotionProfile.mk (EmotionProfile.primary emo) (EmotionProfile.social emo)
      (MoodDynamics.get_state
         (MoodDynamics.update libm (mood act) (delta_time ctx) emo)).
Proof. reflexivity. Qed.

Lemma on_evaluate_cord (g : Globals) (act : t) (ctx : AnimationContext) :
  spinal_cord (snd (on_evaluate libm stray (g, act) ctx))
  = SpinalCord.step
      (SpinalCord.set_emotional_modulation (spinal_cord act)
         (EmotionProfile.fear
            (EmotionProfile.primary
               (current_emotion (snd (on_evaluate libm stray (g, act) ctx))))))
      (torques_of ctx) (delta_time ctx).
Proof. reflexivity. Qed.

Lemma on_evaluate_bridge (g : Globals) (act : t) (ctx : AnimationContext) :
  let after := snd (on_evaluate libm stray (g, act) ctx) in
  desired_joint_torques (bridge after) = torques_of ctx
  /\ cognitive_stimuli (bridge after) = stimuli_of ctx
  /\ muscle_activations (bridge after)
     = SpinalCord.get_muscle_activations (spinal_cord after).
Proof. repeat split. Qed.

Lemma torques_of_length (ctx : AnimationContext) :
  (length (torques_of ctx) <= 1)%nat.
Proof.
  unfold torques_of. destruct (parameters ctx !! "desired_torques"); cbn; lia.
Qed.

(** The override stage steps the trapezius with [trap_activation]. *)
Lemma override_steps_trapezius (G : Z) (ms : list Muscle.t)
    (emotion : EmotionProfile.t) :
  apply_emotion_to_muscles libm G ms emotion !! TRAPEZIUS
  = (fun m => Muscle.step libm G m (trap_activation emotion) 0.016)
      <$> ms !! TRAPEZIUS.
Proof.
  unfold apply_emotion_to_muscles.
  set (f := fun m => Muscle.step libm G m (trap_activation emotion) 0.016).
  set (h := fun m => Muscle.step libm G m (ab_activation emotion) 0.016).
  set (ms1 := if (TRAPEZIUS <? length ms)%nat then alter f TRAPEZIUS ms else ms).
  assert (Hbase : ms1 !! TRAPEZIUS = f <$> ms !! TRAPEZIUS).
  { subst ms1. destruct (Nat.ltb_spec TRAPEZIUS (length ms)) as [_|Hge].
    - apply list_lookup_alter_eq.
    - rewrite (lookup_ge_None_2 ms TRAPEZIUS Hge). reflexivity. }
  destruct (RECTUS_ABDOMINIS <? length ms1)%nat; [|exact Hbase].
  rewrite list_lookup_alter_ne by (unfold RECTUS_ABDOMINIS, TRAPEZIUS; lia).
  exact Hbase.
Qed.

(** The muscle-dynamics stage steps muscle [j] once, with its activation
    read from the bridge (halved on every fourth muscle while throttling). *)
Lemma muscle_loop_lookup (G : Z) (throttling : bool) (acts : list float)
    (ms : list Muscle.t) (dt : float) (j : nat) :
  update_muscles_parallel libm stray G throttling acts ms dt !! j
  = (fun m => Muscle.step libm G m
                (if throttling && (j mod 4 =? 0)%nat
                 then activation_at stray acts j * 0.5
                 else activation_at stray acts j) dt)
      <$> ms !! j.
Proof.
  unfold update_muscles_parallel.
  set (F := fun (i : nat) (m : Muscle.t) =>
              Muscle.step libm G m
                (if throttling && (i mod 4 =? 0)%nat
                 then activation_at stray acts i * 0.5
                 else activation_at stray acts i) dt).
  set (body := fun (i : nat) (v : list Muscle.t) =>
                 if throttling && (i mod 4 =? 0)%nat
                 then alter (fun m => Muscle.step libm G m
                                        (activation_at stray acts i * 0.5) dt) i v
                 else alter (fun m => Muscle.step libm G m
                                        (activation_at stray acts i) dt) i v).
  assert (Hbody : forall i v, body i v = alter (F i) i v).
  { intros i v. unfold body, F.
    destruct (throttling && (i mod 4 =? 0)%nat); reflexivity. }
  assert (Hloop : forall n,
            for_range n body ms = for_range n (fun i v => alter (F i) i v) ms).
  { induction n as [|n IH]; [reflexivity|].
    rewrite !for_range_S, Hbody, IH. reflexivity. }
  rewrite Hloop, for_range_alter_lookup.
  destruct (decide (j < length ms)%nat) as [_|Hge]; [reflexivity|].
  rewrite (lookup_ge_None_2 ms j) by lia. reflexivity.
Qed.

(** The muscles a frame leaves: the override stage run on the muscles the
    frame started with, under the emotion of this frame, followed by the
    muscle-dynamics stage. *)
Lemma on_evaluate_muscles (g : Globals) (act : t) (ctx : AnimationContext) :
  let after := snd (on_evaluate libm stray (g, act) ctx) in
  muscles after
  = update_muscles_parallel libm stray (GRID_SIZE g)
      (is_thermal_throttling (perf act))
      (muscle_activations (bridge after))
      (apply_emotion_to_muscles libm (GRID_SIZE g) (muscles act)
         (current_emotion after))
      (delta_time ctx).
Proof. reflexivity. Qed.

(** The constructed actor has a trapezius. *)
Lemma new_actor_has_trapezius (g : Globals) :
  is_Some (muscles (new libm g MUSCLE_COUNT) !! TRAPEZIUS).
Proof.
  apply lookup_lt_is_Some. unfold new, initialize_human_muscles.
  cbn [muscles]. rewrite length_alter, !length_insert, length_replicate.
  unfold TRAPEZIUS, MUSCLE_COUNT. lia.
Qed.

(** A quiet actor stays so over a frame, because the torque vector never
    has 25 entries. *)
Lemma frame_skips_cord_step (g : Globals) (act : t) (ctx : AnimationContext) :
  quiet act ->
  spinal_cord (snd (on_evaluate libm stray (g, act) ctx))
  = SpinalCord.set_emotional_modulation (spinal_cord act)
      (EmotionProfile.fear
         (EmotionProfile.primary
            (current_emotion (snd (on_evaluate libm stray (g, act) ctx))))).
Proof.
  intros [Hlen _]. rewrite on_evaluate_cord.
  match goal with
  | |- SpinalCord.step ?c ?tq ?dt = _ =>
      destruct (step_guard c tq dt) as [[Heq _]|[_ Hsame]]; [|exact Hsame]
  end.
  rewrite modulation_keeps_length, Hlen in Heq.
  pose proof (torques_of_length ctx). lia.
Qed.

Lemma frame_keeps_quiet (ga : Globals * t) (ctx : AnimationContext) :
  quiet (snd ga) -> quiet (snd (on_evaluate libm stray ga ctx)).
Proof.
  destruct ga as [g act]. cbn [snd]. intros Hq.
  unfold quiet. rewrite (frame_skips_cord_step g act ctx Hq).
  destruct Hq as [Hlen Hsil]. split.
  - rewrite modulation_keeps_length. exact Hlen.
  - apply modulation_keeps_silent. exact Hsil.
Qed.

Lemma new_actor_quiet (g : Globals) : quiet (new libm g MUSCLE_COUNT).
Proof.
  unfold quiet, new.
  destruct (initialize_human_muscles _ _ _) as [ms ts].
  cbn [spinal_cord]. split.
  - unfold SpinalCord.new. cbn [SpinalCord.segments].
    rewrite length_replicate. reflexivity.
  - apply new_cord_silent.
Qed.

Lemma run_frames_keeps_quiet (ga : Globals * t) (ctxs : list AnimationContext) :
  quiet (snd ga) -> quiet (snd (run_frames libm stray ga ctxs)).
Proof.
  revert ga. induction ctxs as [|ctx ctxs IH]; intros ga Hq.
  - exact Hq.
  - cbn [run_frames foldl]. apply IH. apply frame_keeps_quiet. exact Hq.
Qed.

End Frame.

(** With as many torques as segments the guard lets the loop run: a
    one-segment cord asked for torque 1 recruits its flexor pool. *)
Example matching_torques_drive_the_pools :
  exists x, SpinalCord.get_muscle_activations
              (SpinalCord.step (SpinalCord.new libm_q 1) [1] 0.016) = [x]
            /\ 0 < x.
Proof. eexists. split; [vm_compute; reflexivity|reflexivity]. Qed.

(** C9.  For the actor built with 50 muscles, whatever frames came before:
    the cord has 25 segments, [on_evaluate] builds a desired-torques vector of
    at most one entry, so [SpinalCord::step] returns at its length guard (the
    cord after the frame is the cord before it with only the emotional
    modulation applied), and the 25 activations read back from the pools are
    all zero. *)
Theorem C9_default_actor_pools_stay_silent
    (libm : Libm) (stray : nat -> float) (g : Globals)
    (ctxs : list AnimationContext) (ctx : AnimationContext) :
  let before :=
    run_frames libm stray
      (g, PhysiologicalActor.new libm g PhysiologicalActor.MUSCLE_COUNT) ctxs in
  let after := snd (PhysiologicalActor.on_evaluate libm stray before ctx) in
  length (SpinalCord.segments (PhysiologicalActor.spinal_cord (snd before))) = 25%nat
  /\ (length (desired_joint_torques (PhysiologicalActor.bridge after)) <= 1)%nat
  /\ PhysiologicalActor.spinal_cord after
     = SpinalCord.set_emotional_modulation
         (PhysiologicalActor.spinal_cord (snd before))
         (EmotionProfile.fear
            (EmotionProfile.primary (PhysiologicalActor.current_emotion after)))
  /\ muscle_activations (PhysiologicalActor.bridge after)
     = SpinalCord.get_muscle_activations (PhysiologicalActor.spinal_cord after)
  /\ length (muscle_activations (PhysiologicalActor.bridge after)) = 25%nat
  /\ Forall (fun x => x == 0) (muscle_activations (PhysiologicalActor.bridge after)).
Proof.
  intros before after.
  assert (Hq : quiet (snd before)).
  { apply run_frames_keeps_quiet. apply new_actor_quiet. }
  assert (Hq' : quiet after).
  { apply frame_keeps_quiet. exact Hq. }
  subst after. destruct before as [g' act]. cbn [snd] in *.
  destruct (on_evaluate_bridge libm stray g' act ctx) as (Htq & _ & Hacts).
  cbv zeta in Htq, Hacts.
  split; [exact (proj1 Hq)|].
  split; [rewrite Htq; apply torques_of_length|].
  split; [apply frame_skips_cord_step; exact Hq|].
  split; [exact Hacts|].
  rewrite Hacts. split.
  - unfold SpinalCord.get_muscle_activations. rewrite length_fmap.
    exact (proj1 Hq').
  - apply silent_cord_activations. exact (proj2 Hq').
Qed.

(* ----------------------------------------------------------------- *)
(** ** Appraisal and the threat frame *)

Section ThreatFrame.
Import PhysiologicalActor.
Variable libm : Libm.
Variable stray : nat -> float.

Lemma threat_frame_stimuli :
  exists stim, stimuli_of threat_ctx = [stim]
               /\ category stim = "threat"
               /\ intensity stim == 0.8
               /\ urgency stim = 0.9.
Proof.
  eexists. split; [vm_compute; reflexivity|]. repeat split.
Qed.

Lemma threat_frame_fear (g : Globals) (act : t) :
  EmotionProfile.fear
    (EmotionProfile.primary
       (current_emotion (snd (on_evaluate libm stray (g, act) threat_ctx))))
  == 1.2.
Proof.
  rewrite on_evaluate_emotion. cbv zeta.
  cbn [EmotionProfile.primary EmotionProfile.fear].
  vm_compute. reflexivity.
Qed.

End ThreatFrame.

(** C2 (as amended).  In a frame evaluated on [threat_ctx] (dt 0.016, threat
    distance 0.25, urgency 0.9) the stimulus built has intensity 0.8, the
    fear channel of the actor's emotion is at least 0.8, and the override
    stage steps the trapezius with 0.7 times that fear channel, which is
    therefore at least 0.56.  The muscles the frame leaves are those of the
    override stage, run on the actor's muscles with this frame's emotion and
    handed to the muscle-dynamics stage; so the trapezius after the frame is
    the trapezius before it, stepped with that activation over 0.016 and then
    once more by the muscle loop with its bridge activation. *)
Theorem C2_threat_frame_override
    (libm : Libm) (stray : nat -> float) (g : Globals)
    (act : PhysiologicalActor.t) :
  let after := snd (PhysiologicalActor.on_evaluate libm stray (g, act) threat_ctx) in
  let emo := PhysiologicalActor.current_emotion after in
  let fear := EmotionProfile.fear (EmotionProfile.primary emo) in
  let throttling :=
    PhysiologicalActor.is_thermal_throttling (PhysiologicalActor.perf act) in
  let a :=
    PhysiologicalActor.activation_at stray
      (muscle_activations (PhysiologicalActor.bridge after))
      PhysiologicalActor.TRAPEZIUS in
  (exists stim, cognitive_stimuli (PhysiologicalActor.bridge after) = [stim]
                /\ intensity stim == 0.8)
  /\ 0.8 <= fear
  /\ PhysiologicalActor.trap_activation emo == 0.7 * fear
  /\ 0.56 <= PhysiologicalActor.trap_activation emo
  /\ (forall (G : Z) (ms : list Muscle.t),
        PhysiologicalActor.apply_emotion_to_muscles libm G ms emo
          !! PhysiologicalActor.TRAPEZIUS
        = (fun m => Muscle.step libm G m (PhysiologicalActor.trap_activation emo) 0.016)
            <$> ms !! PhysiologicalActor.TRAPEZIUS)
  /\ PhysiologicalActor.muscles after
     = PhysiologicalActor.update_muscles_parallel libm stray (GRID_SIZE g)
         throttling (muscle_activations (PhysiologicalActor.bridge after))
         (PhysiologicalActor.apply_emotion_to_muscles libm (GRID_SIZE g)
            (PhysiologicalActor.muscles act) emo)
         0.016
  /\ PhysiologicalActor.muscles after !! PhysiologicalActor.TRAPEZIUS
     = (fun m =>
          Muscle.step libm (GRID_SIZE g)
            (Muscle.step libm (GRID_SIZE g) m
               (PhysiologicalActor.trap_activation emo) 0.016)
            (if throttling then a * 0.5 else a) 0.016)
         <$> PhysiologicalActor.muscles act !! PhysiologicalActor.TRAPEZIUS.
Proof.
  intros after emo fear throttling a.
  assert (Hfear : fear == 1.2) by apply threat_frame_fear.
  pose proof (on_evaluate_muscles libm stray g act threat_ctx) as Hms.
  cbv zeta in Hms. fold after in Hms. fold emo in Hms. fold throttling in Hms.
  split.
  { destruct (on_evaluate_bridge libm stray g act threat_ctx) as (_ & Hst & _).
    cbv zeta in Hst. fold after in Hst.
    destruct threat_frame_stimuli as (stim & Hs & _ & Hi & _).
    exists stim. rewrite Hst. split; assumption. }
  split; [rewrite Hfear; discriminate|].
  split; [unfold PhysiologicalActor.trap_activation; fold fear; ring|].
  split; [unfold PhysiologicalActor.trap_activation; fold fear;
          rewrite Hfear; discriminate|].
  split; [intros G ms; apply override_steps_trapezius|].
  split; [exact Hms|].
  rewrite Hms, muscle_loop_lookup, override_steps_trapezius.
  fold a. destruct (PhysiologicalActor.muscles act !! PhysiologicalActor.TRAPEZIUS);
    [|reflexivity].
  cbn [fmap option_fmap option_map]. f_equal.
  destruct throttling; reflexivity.
Qed.

(** C2 (as stated) fails: on the default actor the trapezius is stepped with
    activation 0.84, not 0.56. *)
Lemma C2_trapezius_activation_counterexample :
  let after :=
    snd (PhysiologicalActor.on_evaluate libm_q stray0
           (initial_globals, default_actor libm_q) threat_ctx) in
  PhysiologicalActor.trap_activation (PhysiologicalActor.current_emotion after) == 0.84
  /\ ~ PhysiologicalActor.trap_activation (PhysiologicalActor.current_emotion after)
       == 0.56.
Proof.
  intros after.
  pose proof (threat_frame_fear libm_q stray0 initial_globals (default_actor libm_q))
    as Hfear.
  fold after in Hfear.
  unfold PhysiologicalActor.trap_activation. rewrite Hfear.
  split; [reflexivity|]. intros H. discriminate H.
Qed.

(** Scenario 6: the reward stimulus gives joy 0.5, trust 0.5 and goal
    relevance 0.25, and leaves fear at 0. *)
Example appraisal_of_reward :
  let out := CognitiveAppraiser.appraise reward_stimulus baseline_ctx in
  let prim := EmotionProfile.primary (CognitiveAppraiser.emotion out) in
  EmotionProfile.joy prim == 0.5
  /\ EmotionProfile.trust prim == 0.5
  /\ CognitiveAppraiser.goal_relevance out == 0.25
  /\ EmotionProfile.fear prim == 0.
Proof. repeat split; vm_compute; reflexivity. Qed.

(** The fear a relevant threat produces: intensity, amplified by
    unfamiliarity and by carried stress, with no upper bound applied. *)
Lemma appraise_threat_fear (stim : Stimulus) (ctx : AnimationContext) :
  category stim = "threat" ->
  fltb (urgency stim * intensity stim) 0.2 = false ->
  EmotionProfile.fear
    (EmotionProfile.primary
       (CognitiveAppraiser.emotion (CognitiveAppraiser.appraise stim ctx)))
  = intensity stim * (2 - familiarity stim) * (1 + emotion_mood_stress ctx * 0.5).
Proof.
  intros Hcat Hrel.
  unfold CognitiveAppraiser.appraise, CognitiveAppraiser.primary_appraisal.
  rewrite Hrel, Hcat. reflexivity.
Qed.

(** C3 at its failing inputs.  Appraising the threat of scenario 1 with no
    carried stress gives fear 1.2; a fully unfamiliar threat under full stress
    gives fear 3; and the fear channel of the actor's emotion after the threat
    frame is 1.2.  All exceed 1, so the eight primary channels of the first
    appraisal are not all within [0, 1]. *)
Theorem C3_threat_fear_exceeds_one :
  let fear_of (out : CognitiveAppraiser.AppraisalOutput) :=
    EmotionProfile.fear (EmotionProfile.primary (CognitiveAppraiser.emotion out)) in
  let after :=
    snd (PhysiologicalActor.on_evaluate libm_q stray0
           (initial_globals, default_actor libm_q) threat_ctx) in
  fear_of (CognitiveAppraiser.appraise threat_stimulus (appraisal_ctx 0)) == 1.2
  /\ fear_of (CognitiveAppraiser.appraise unfamiliar_threat (appraisal_ctx 1)) == 3
  /\ EmotionProfile.fear
       (EmotionProfile.primary (PhysiologicalActor.current_emotion after)) == 1.2
  /\ ~ Forall (fun x => 0 <= x <= 1)
         (EmotionProfile.primary_channels
            (EmotionProfile.primary
               (CognitiveAppraiser.emotion
                  (CognitiveAppraiser.appraise threat_stimulus (appraisal_ctx 0))))).
Proof.
  intros fear_of after.
  split; [vm_compute; reflexivity|].
  split; [vm_compute; reflexivity|].
  split; [apply threat_frame_fear|].
  intros Hall.
  apply Forall_lookup_1 with (i := 3%nat)
    (x := EmotionProfile.fear
            (EmotionProfile.primary
               (CognitiveAppraiser.emotion
                  (CognitiveAppraiser.appraise threat_stimulus (appraisal_ctx 0)))))
    in Hall; [|reflexivity].
  destruct Hall as [_ Hle]. vm_compute in Hle. apply Hle. reflexivity.
Qed.

(* ----------------------------------------------------------------- *)
(** ** Blending *)

(** The four channels [blend_emotions_max] does merge. *)
Lemma blend_merges_four (base add : EmotionProfile.t) :
  let merged := EmotionProfile.primary (PhysiologicalActor.blend_emotions_max base add) in
  let bp := EmotionProfile.primary base in
  let ap := EmotionProfile.primary add in
  EmotionProfile.joy merged = fmax (EmotionProfile.joy bp) (EmotionProfile.joy ap)
  /\ EmotionProfile.sadness merged
     = fmax (EmotionProfile.sadness bp) (EmotionProfile.sadness ap)
  /\ EmotionProfile.anger merged
     = fmax (EmotionProfile.anger bp) (EmotionProfile.anger ap)
  /\ EmotionProfile.fear merged
     = fmax (EmotionProfile.fear bp) (EmotionProfile.fear ap).
Proof. repeat split. Qed.

(** The four it leaves as they were in the running profile. *)
Lemma blend_keeps_four (base add : EmotionProfile.t) :
  let merged := EmotionProfile.primary (PhysiologicalActor.blend_emotions_max base add) in
  let bp := EmotionProfile.primary base in
  EmotionProfile.surprise merged = EmotionProfile.surprise bp
  /\ EmotionProfile.disgust merged = EmotionProfile.disgust bp
  /\ EmotionProfile.trust merged = EmotionProfile.trust bp
  /\ EmotionProfile.anticipation merged = EmotionProfile.anticipation bp.
Proof. repeat split. Qed.

(** C5 at its failing input.  The appraisal of the scenario-1 threat has
    goal relevance 0.72 and surprise 0.45; merged into a fresh profile, the
    surprise channel stays 0 instead of becoming the maximum 0.45. *)
Theorem C5_blend_leaves_surprise_unmerged :
  let result := CognitiveAppraiser.appraise threat_stimulus (appraisal_ctx 0) in
  let add := CognitiveAppraiser.emotion result in
  let merged := PhysiologicalActor.blend_emotions_max EmotionProfile.new add in
  0.2 < CognitiveAppraiser.goal_relevance result
  /\ EmotionProfile.surprise (EmotionProfile.primary add) == 0.45
  /\ fmax (EmotionProfile.surprise (EmotionProfile.primary EmotionProfile.new))
          (EmotionProfile.surprise (EmotionProfile.primary add)) == 0.45
  /\ EmotionProfile.surprise (EmotionProfile.primary merged) = 0.
Proof.
  intros result add merged.
  split; [vm_compute; reflexivity|].
  split; [vm_compute; reflexivity|].
  split; [vm_compute; reflexivity|].
  reflexivity.
Qed.

(* ----------------------------------------------------------------- *)
(** ** Huxley fiber *)

Lemma fclamp_bounds (v lo hi : float) :
  lo <= hi -> lo <= fclamp v lo hi <= hi.
Proof.
  intros Hlh. unfold fclamp.
  destruct (fltb v lo) eqn:H1; [lra|].
  destruct (fltb hi v) eqn:H2; [lra|].
  apply not_true_iff_false in H1, H2.
  rewrite fltb_lt in H1, H2. lra.
Qed.

Lemma rd_insert_eq (v : list float) (i : nat) (x : float) :
  (i < length v)%nat -> rd (<[i := x]> v) i = x.
Proof. intros Hi. unfold rd. rewrite list_lookup_insert_eq by exact Hi. reflexivity. Qed.

Lemma rd_insert_ne (v : list float) (i j : nat) (x : float) :
  i <> j -> rd (<[i := x]> v) j = rd v j.
Proof. intros Hne. unfold rd. rewrite list_lookup_insert_ne by exact Hne. reflexivity. Qed.

Section Fiber.
Import HuxleyFiber.
Variable libm : Libm.

Lemma start_grid_length (G : Z) (fb : t) :
  length (start_grid G fb) = Z.to_nat G.
Proof.
  unfold start_grid.
  destruct (Z.eqb_spec (Z.of_nat (length (n fb))) G) as [<-|_]; cbn [negb].
  - symmetry. apply Nat2Z.id.
  - apply length_resize.
Qed.

Lemma step_n (G : Z) (fb : t) (activation len velocity dt : float) :
  n (step libm G fb activation len velocity dt)
  = fst (for_range (Z.to_nat G)
           (bin_body libm G (params fb) activation
                     (velocity / v_max (params fb)) dt)
           (start_grid G fb, 0)).
Proof.
  unfold step.
  destruct (for_range _ _ _) as [ns sum]. reflexivity.
Qed.

(** Peel the last iteration off the bin loop and name the state it ran on. *)
Ltac peel_bin_loop k ns sum :=
  rewrite (for_range_S k);
  destruct (for_range k _ _) as [ns sum];
  cbn [fst] in *; cbn [bin_body fst].

Lemma bin_loop_length (G : Z) (p : Params) (act v_rel dt : float)
    (k : nat) (ns : list float) (sum : float) :
  length (fst (for_range k (bin_body libm G p act v_rel dt) (ns, sum)))
  = length ns.
Proof.
  induction k as [|k IH]; [reflexivity|].
  peel_bin_loop k ns' sum'. rewrite length_insert. exact IH.
Qed.


Lemma step_grid_length (G : Z) (fb : t) (activation len velocity dt : float) :
  length (n (step libm G fb activation len velocity dt)) = Z.to_nat G.
Proof. rewrite step_n, bin_loop_length. apply start_grid_length. Qed.


(** Iteration [k] and later leave the bins below [k] alone, and the bins
    from [k] on still hold what the loop started with. *)
Lemma bin_loop_untouched (G : Z) (p : Params) (act v_rel dt : float)
    (k : nat) (ns : list float) (sum : float) (j : nat) :
  (k <= j)%nat ->
  rd (fst (for_range k (bin_body libm G p act v_rel dt) (ns, sum))) j = rd ns j.
Proof.
  induction k as [|k IH]; intros Hkj; [reflexivity|].
  peel_bin_loop k ns' sum'. rewrite rd_insert_ne by lia. apply IH. lia.
Qed.

Lemma bin_loop_settled (G : Z) (p : Params) (act v_rel dt : float)
    (k : nat) (ns : list float) (sum : float) (j : nat) :
  (j < k)%nat ->
  rd (fst (for_range k (bin_body libm G p act v_rel dt) (ns, sum))) j
  = rd (fst (for_range (S j) (bin_body libm G p act v_rel dt) (ns, sum))) j.
Proof.
  induction k as [|k IH]; intros Hjk; [lia|].
  destruct (decide (j = k)) as [->|Hne]; [reflexivity|].
  rewrite (for_range_S k).
  destruct (for_range k _ _) as [ns' sum'] eqn:Hk. cbn [fst] in IH.
  cbn [bin_body fst]. rewrite rd_insert_ne by congruence. apply IH. lia.
Qed.

(** What the loop leaves in bin [i]: the clamped Euler update of the old
    [n_i], whose convection term pairs the old right neighbour with the left
    neighbour as the loop has already rewritten it (for [i = 0] the clipped
    left index is bin 0 itself, still old). *)
Lemma step_bin_sweep (G : Z) (fb : t) (activation len velocity dt : float)
    (i : nat) :
  (i < Z.to_nat G)%nat ->
  let n0 := start_grid G fb in
  let n' := n (step libm G fb activation len velocity dt) in
  let v_rel := velocity / v_max (params fb) in
  let x := bin_x G i in
  let left := match i with O => rd n0 0 | S i' => rd n' i' end in
  rd n' i
  = fclamp (rd n0 i
            + (rate_f libm (params fb) x activation * (1 - rd n0 i)
               - rate_g (params fb) x v_rel * rd n0 i
               - v_rel * (rd n0 (i_right G i) - left) / (2 * DX)) * dt) 0 1.
Proof.
  intros Hi n0 n' v_rel x left. subst n' left.
  rewrite !step_n. fold n0 v_rel.
  rewrite (bin_loop_settled G (params fb) activation v_rel dt (Z.to_nat G) n0 0 i Hi).
  set (body := bin_body libm G (params fb) activation v_rel dt).
  assert (Hleft : rd (fst (for_range i body (n0, 0))) (i_left i)
                  = match i with
                    | O => rd n0 0
                    | S i' => rd (fst (for_range (Z.to_nat G) body (n0, 0))) i'
                    end).
  { destruct i as [|i'].
    - reflexivity.
    - replace (i_left (S i')) with i' by (unfold i_left; lia).
      symmetry. apply bin_loop_settled. lia. }
  rewrite <- Hleft. rewrite for_range_S.
  pose proof (bin_loop_untouched G (params fb) activation v_rel dt i n0 0 i
                (Nat.le_refl i)) as Hown.
  pose proof (bin_loop_untouched G (params fb) activation v_rel dt i n0 0
                (i_right G i)) as Hright.
  pose proof (bin_loop_length G (params fb) activation v_rel dt i n0 0) as Hlen.
  fold body in Hown, Hright, Hlen.
  destruct (for_range i body (n0, 0)) as [ns sum]. cbn [fst] in *.
  unfold body at 1. cbn [bin_body fst].
  rewrite rd_insert_eq by (rewrite Hlen; unfold n0; rewrite start_grid_length; exact Hi).
  rewrite Hown, Hright by (unfold i_right; lia). fold x. reflexivity.
Qed.

End Fiber.

(** The grid size a fiber step sees after [set_accuracy] is the one it saw
    before. *)
Lemma set_accuracy_then_step_length (libm : Libm) (acc : Accuracy) (g : Globals)
    (fb : HuxleyFiber.t) (activation len velocity dt : float) :
  length (HuxleyFiber.n
            (HuxleyFiber.step libm (GRID_SIZE (Engine.set_accuracy acc g)) fb
                              activation len velocity dt))
  = Z.to_nat (GRID_SIZE g).
Proof. apply step_grid_length. Qed.

Lemma set_accuracy_keeps_grid_size (acc : Accuracy) (g : Globals) :
  GRID_SIZE (Engine.set_accuracy acc g) = GRID_SIZE g.
Proof. reflexivity. Qed.

Lemma initialize_sets_grid_size (cfg : Config) (g : Globals) :
  s_initialized g = false ->
  GRID_SIZE (Engine.initialize cfg g) = Engine.grid_size_of (accuracy cfg).
Proof. intros H. unfold Engine.initialize. rewrite H. reflexivity. Qed.

(** C4 at its failing input.  The engine is initialised at the Standard tier
    and then told [set_accuracy(Extreme)]: the configuration records the new
    tier, whose grid size is 1000, but [GRID_SIZE] is still 100, and the next
    step of a fiber leaves it with 100 bins. *)
Theorem C4_set_accuracy_leaves_grid_at_old_size :
  let g0 := Engine.initialize default_config initial_globals in
  let g := Engine.set_accuracy Extreme g0 in
  let fb := HuxleyFiber.step libm_q (GRID_SIZE g) (HuxleyFiber.new (GRID_SIZE g0))
              1 0.3 0 0.016 in
  Engine.grid_size_of (accuracy (t_config g)) = 1000%Z
  /\ GRID_SIZE g = 100%Z
  /\ length (HuxleyFiber.n fb) = 100%nat.
Proof.
  intros g0 g fb. split; [reflexivity|]. split; [reflexivity|].
  subst fb. rewrite step_grid_length. reflexivity.
Qed.

(** C6 at its failing inputs, on the ten-bin grid.  (1) A fresh fiber
    stepped with activation 1, velocity 2500 and dt 0.001: bin 0 agrees with
    the simultaneous update, bin 1 is larger than it, because its convection
    term read the bin 0 just written.  (2) A fiber whose only attached bin is
    bin 0, stepped with activation 0 (no exponential involved), velocity 2500
    and dt 0.01: the loop leaves 0.004025 in bin 1 and 0.000020125 in bin 2,
    the simultaneous update 0.005 and 0. *)
Theorem C6_bin_loop_reads_updated_left_neighbour :
  let code1 := HuxleyFiber.n
                 (HuxleyFiber.step libm_q 10 (HuxleyFiber.new 10) 1 0.3 2500 0.001) in
  let spec1 := simultaneous_update libm_q 10 HuxleyFiber.default_params
                 1 (2500 / 2500) 0.001 (HuxleyFiber.n (HuxleyFiber.new 10)) in
  let code2 := HuxleyFiber.n (HuxleyFiber.step libm_q 10 one_hot_fiber 0 0.3 2500 0.01) in
  let spec2 := simultaneous_update libm_q 10 HuxleyFiber.default_params
                 0 (2500 / 2500) 0.01 (HuxleyFiber.n one_hot_fiber) in
  (rd code1 0 == rd spec1 0 /\ rd spec1 1 < rd code1 1)
  /\ (rd code2 0 == 0.805 /\ rd spec2 0 == 0.805)
  /\ (rd code2 1 == 0.004025 /\ rd spec2 1 == 0.005)
  /\ (rd code2 2 == 0.000020125 /\ rd spec2 2 == 0).
Proof.
  intros code1 spec1 code2 spec2.
  repeat split; vm_compute; reflexivity.
Qed.

(* ----------------------------------------------------------------- *)
(** ** Metabolism *)


(* ----------------------------------------------------------------- *)
(** ** Tendon *)

Section Tendon.
Import TendonNonlinear.
Variable libm : Libm.

Lemma compute_stress_result (tn : t) (strain strain_rate dt : float) :
  exists sigma_total,
    snd (compute_stress libm tn strain strain_rate dt)
    = fclamp sigma_total 0 (E_nonlinear tn * epsilon_max tn * epsilon_max tn).
Proof.
  unfold compute_stress.
  destruct (for_range _ _ _) as [ts sigma_history].
  eexists. reflexivity.
Qed.

Lemma compute_stress_keeps_E_nonlinear (tn : t) (strain strain_rate dt : float) :
  E_nonlinear (fst (compute_stress libm tn strain strain_rate dt))
  = E_nonlinear tn.
Proof.
  unfold compute_stress.
  destruct (for_range _ _ _) as [ts sigma_history]. reflexivity.
Qed.

Lemma run_stress_calls_keeps_E_nonlinear (tn : t)
    (calls : list (float * float * float)) :
  E_nonlinear (run_stress_calls libm tn calls) = E_nonlinear tn.
Proof.
  revert tn. induction calls as [|[[s r] d] calls IH]; intros tn.
  - reflexivity.
  - change (run_stress_calls libm tn ((s, r, d) :: calls))
      with (run_stress_calls libm (fst (compute_stress libm tn s r d)) calls).
    rewrite IH. apply compute_stress_keeps_E_nonlinear.
Qed.

(** With no non-linear modulus the saturation ceiling is 0 and the clamp
    leaves 0. *)
Lemma stress_without_E_nonlinear (tn : t) (strain strain_rate dt : float) :
  E_nonlinear tn = 0 ->
  snd (compute_stress libm tn strain strain_rate dt) == 0.
Proof.
  intros HE.
  destruct (compute_stress_result tn strain strain_rate dt) as [sigma ->].
  rewrite HE.
  assert (Hmax : 0 * epsilon_max tn * epsilon_max tn == 0) by ring.
  pose proof (fclamp_bounds sigma 0 (0 * epsilon_max tn * epsilon_max tn)) as Hb.
  lra.
Qed.

End Tendon.

(** The default tendon answers a 5 % strain with a positive stress; put in
    linear mode first, it answers 0. *)
Example tendon_default_and_linear :
  0 < snd (TendonNonlinear.compute_stress libm_q TendonNonlinear.new 0.05 0.1 0.001)
  /\ snd (TendonNonlinear.compute_stress libm_q
            (TendonNonlinear.set_linear_mode TendonNonlinear.new) 0.05 0.1 0.001)
     == 0.
Proof. split; vm_compute; reflexivity. Qed.

(** C10.  Once [set_linear_mode] has been called on a tendon, every
    [compute_stress] call returns 0, whatever calls were made in between and
    whatever the strain, strain rate and dt. *)
Theorem C10_linear_mode_stress_is_zero
    (libm : Libm) (tn : TendonNonlinear.t)
    (calls : list (float * float * float)) (strain strain_rate dt : float) :
  snd (TendonNonlinear.compute_stress libm
         (run_stress_calls libm (TendonNonlinear.set_linear_mode tn) calls)
         strain strain_rate dt) == 0.
Proof.
  apply stress_without_E_nonlinear.
  rewrite run_stress_calls_keeps_E_nonlinear. reflexivity.
Qed.

(* ================================================================= *)
(** * Further properties of the code *)

(* ----------------------------------------------------------------- *)
(** ** More on the motor-neuron pool *)

Lemma fmax_cases (a b : float) :
  (a < b /\ fmax a b = b) \/ (b <= a /\ fmax a b = a).
Proof.
  unfold fmax. destruct (fltb a b) eqn:H.
  - left. split; [apply fltb_lt; exact H|reflexivity].
  - right. split; [|reflexivity].
    apply not_true_iff_false in H. rewrite fltb_lt in H. lra.
Qed.

Lemma fclamp_cases (v lo hi : float) :
  (v < lo /\ fclamp v lo hi = lo)
  \/ (lo <= v /\ hi < v /\ fclamp v lo hi = hi)
  \/ (lo <= v /\ v <= hi /\ fclamp v lo hi = v).
Proof.
  unfold fclamp. destruct (fltb v lo) eqn:H1.
  - left. split; [apply fltb_lt; exact H1|reflexivity].
  - apply not_true_iff_false in H1. rewrite fltb_lt in H1.
    destruct (fltb hi v) eqn:H2.
    + right. left. apply fltb_lt in H2. repeat split; [lra|exact H2].
    + right. right. apply not_true_iff_false in H2. rewrite fltb_lt in H2.
      repeat split; lra.
Qed.

(** A list passes a boolean test on every element. *)
Lemma Forall_forallb {A : Type} (f : A -> bool) (P : A -> Prop) (l : list A) :
  (forall x, f x = true -> P x) -> forallb f l = true -> Forall P l.
Proof.
  intros Hf. induction l as [|x l IH]; cbn [forallb]; intros H.
  - constructor.
  - apply andb_prop in H as [Hx Hl]. constructor; [apply Hf, Hx|apply IH, Hl].
Qed.

Section PoolMore.
Import MotorNeuronPool.

Lemma total_drive_range (p : t) : 0 <= total_drive p <= 1.
Proof. unfold total_drive. apply fclamp_bounds. lra. Qed.

Lemma step_neuron_rate_range (td dt : float) (n : Neuron) :
  0 <= firing_rate (step_neuron td dt n) <= 200.
Proof.
  unfold step_neuron.
  destruct (fltb 0 (td - recruitment_threshold n)
            && fleb (after_hyperpolarization n) 0); cbn [firing_rate].
  - apply fclamp_bounds. lra.
  - lra.
Qed.

Lemma step_neuron_threshold (td dt : float) (n : Neuron) :
  recruitment_threshold (step_neuron td dt n) = recruitment_threshold n.
Proof.
  unfold step_neuron.
  destruct (fltb 0 (td - recruitment_threshold n)
            && fleb (after_hyperpolarization n) 0); reflexivity.
Qed.

Lemma step_neuron_fatigue (td dt : float) (n : Neuron) :
  0 <= dt -> 0 <= fatigue n -> 0 <= fatigue (step_neuron td dt n).
Proof.
  intros Hdt Hf. unfold step_neuron.
  destruct (fltb 0 (td - recruitment_threshold n)
            && fleb (after_hyperpolarization n) 0); cbn [fatigue].
  - pose proof (fclamp_bounds (50 * (td - recruitment_threshold n) * (1 - fatigue n))
                              0 200) as Hr.
    assert (0 <= 200) as H200 by lra. specialize (Hr H200). nra.
  - destruct (fmax_cases (fatigue n - dt * 0.01) 0) as [[_ ->]|[H ->]]; lra.
Qed.

Lemma step_neuron_below_threshold (td dt : float) (n : Neuron) :
  td <= recruitment_threshold n ->
  step_neuron td dt n
  = mkNeuron 0 (recruitment_threshold n) (fmax (fatigue n - dt * 0.01) 0)
             (after_hyperpolarization n - dt).
Proof.
  intros Hle. unfold step_neuron.
  destruct (fltb 0 (td - recruitment_threshold n)) eqn:H; [|reflexivity].
  apply fltb_lt in H. lra.
Qed.

Lemma step_length (p : t) (dt : float) :
  length (neurons (step p dt)) = length (neurons p).
Proof.
  unfold step. cbn [neurons].
  apply (for_range_alter_length (fun _ => step_neuron (total_drive p) dt)).
Qed.

(** Every neuron of the stepped pool is either an image under the loop body
    or, past [N_NEURONS], an untouched neuron of the old pool. *)
Lemma step_lookup_cases (p : t) (dt : float) (i : nat) (n' : Neuron) :
  neurons (step p dt) !! i = Some n' ->
  exists n, neurons p !! i = Some n
            /\ (n' = step_neuron (total_drive p) dt n \/ n' = n).
Proof.
  unfold step. cbn [neurons].
  rewrite (for_range_alter_lookup (fun _ => step_neuron (total_drive p) dt)).
  destruct (decide (i < N_NEURONS)%nat); intros H.
  - destruct (neurons p !! i) as [n|]; [|discriminate].
    injection H as <-. exists n. split; [reflexivity|left; reflexivity].
  - exists n'. split; [exact H|right; reflexivity].
Qed.

(** The running sum of [get_average_firing_rate] stays between the bounds
    of the rates it adds. *)
Lemma rate_sum_bounds (lo hi : float) (ns : list Neuron) (acc : float) :
  Forall (fun n => lo <= firing_rate n <= hi) ns ->
  acc + lo * of_nat (length ns)
  <= foldl (fun sum n => sum + firing_rate n) acc ns
  <= acc + hi * of_nat (length ns).
Proof.
  intros H. revert acc. induction H as [|n ns Hn _ IH]; intros acc.
  - cbn [foldl length]. change (of_nat 0) with 0. lra.
  - cbn [foldl length]. specialize (IH (acc + firing_rate n)).
    assert (Hs : of_nat (S (length ns)) == of_nat (length ns) + 1).
    { unfold of_nat. rewrite Nat2Z.inj_succ, <- Z.add_1_r, inject_Z_plus.
      reflexivity. }
    rewrite Hs. cbv beta in Hn. lra.
Qed.

(** What the constructor leaves in slot [i]. *)
Lemma new_lookup (libm : Libm) (i : nat) :
  (i < N_NEURONS)%nat ->
  neurons (new libm) !! i
  = Some (mkNeuron 0 (fpow libm (of_nat i / of_nat N_NEURONS) 1.5) 0 0).
Proof.
  intros Hi. unfold new. cbn [neurons].
  rewrite (for_range_alter_lookup
             (fun i => set_threshold (fpow libm (of_nat i / of_nat N_NEURONS) 1.5))).
  destruct (decide (i < N_NEURONS)%nat); [|contradiction].
  rewrite lookup_replicate_2 by exact Hi. reflexivity.
Qed.

Lemma new_length (libm : Libm) : length (neurons (new libm)) = N_NEURONS.
Proof.
  unfold new. cbn [neurons].
  rewrite (for_range_alter_length
             (fun i => set_threshold (fpow libm (of_nat i / of_nat N_NEURONS) 1.5))).
  apply length_replicate.
Qed.

(** Every neuron of a new pool is silent, rested and out of refractory. *)
Lemma new_pool_fresh (libm : Libm) :
  Forall (fun n => firing_rate n = 0 /\ fatigue n = 0
                   /\ after_hyperpolarization n = 0)
         (neurons (new libm)).
Proof.
  apply Forall_lookup. intros i n Hn.
  pose proof (lookup_lt_Some _ _ _ Hn) as Hi. rewrite new_length in Hi.
  rewrite new_lookup in Hn by exact Hi. injection Hn as <-. repeat split.
Qed.

End PoolMore.

(** X1.  After [MotorNeuronPool::step] on a pool of [N_NEURONS] neurons
    every firing rate lies in [0, 200], and so does the average the pool
    reports. *)
Theorem X1_step_rates_within_0_200 (p : MotorNeuronPool.t) (dt : float) :
  length (MotorNeuronPool.neurons p) = MotorNeuronPool.N_NEURONS ->
  Forall (fun n => 0 <= MotorNeuronPool.firing_rate n <= 200)
         (MotorNeuronPool.neurons (MotorNeuronPool.step p dt))
  /\ 0 <= MotorNeuronPool.get_average_firing_rate (MotorNeuronPool.step p dt) <= 200.
Proof.
  intros Hlen.
  assert (Hall : Forall (fun n => 0 <= MotorNeuronPool.firing_rate n <= 200)
                        (MotorNeuronPool.neurons (MotorNeuronPool.step p dt))).
  { apply Forall_lookup. intros i n' Hn'.
    pose proof (lookup_lt_Some _ _ _ Hn') as Hi.
    rewrite step_length, Hlen in Hi.
    rewrite step_lookup in Hn' by exact Hi.
    destruct (MotorNeuronPool.neurons p !! i) as [n|]; [|discriminate].
    injection Hn' as <-. apply step_neuron_rate_range. }
  split; [exact Hall|].
  unfold MotorNeuronPool.get_average_firing_rate.
  pose proof (rate_sum_bounds 0 200 _ 0 Hall) as Hsum.
  rewrite step_length, Hlen in Hsum.
  change (of_nat MotorNeuronPool.N_NEURONS) with 100 in *.
  set (sum := foldl _ _ _) in *.
  split.
  - apply Qle_shift_div_l; lra.
  - apply Qle_shift_div_r; lra.
Qed.

Lemma X1_step_rates_within_0_200_witness :
  Forall (fun n => 0 <= MotorNeuronPool.firing_rate n <= 200)
         (MotorNeuronPool.neurons (MotorNeuronPool.step driven_pool 0.016))
  /\ 0 <= MotorNeuronPool.get_average_firing_rate
            (MotorNeuronPool.step driven_pool 0.016) <= 200.
Proof.
  apply X1_step_rates_within_0_200. exact (new_length libm_q).
Defined.

(** X2.  With a non-negative dt, [MotorNeuronPool::step] never makes a
    fatigue negative: if no neuron has negative fatigue before the call,
    none has after it. *)
Theorem X2_step_keeps_fatigue_nonnegative (p : MotorNeuronPool.t) (dt : float) :
  0 <= dt ->
  Forall (fun n => 0 <= MotorNeuronPool.fatigue n) (MotorNeuronPool.neurons p) ->
  Forall (fun n => 0 <= MotorNeuronPool.fatigue n)
         (MotorNeuronPool.neurons (MotorNeuronPool.step p dt)).
Proof.
  intros Hdt Hall. apply Forall_lookup. intros i n' Hn'.
  destruct (step_lookup_cases p dt i n' Hn') as (n & Hn & Hcase).
  pose proof (Forall_lookup_1 _ _ _ _ Hall Hn) as Hf. cbv beta in Hf.
  destruct Hcase as [->| ->]; [apply step_neuron_fatigue; assumption|exact Hf].
Qed.

Lemma X2_step_keeps_fatigue_nonnegative_witness :
  Forall (fun n => 0 <= MotorNeuronPool.fatigue n)
         (MotorNeuronPool.neurons (MotorNeuronPool.step driven_pool 0.016)).
Proof.
  apply X2_step_keeps_fatigue_nonnegative.
  - vm_compute. discriminate.
  - refine (Forall_impl _ _ _ (new_pool_fresh libm_q) _).
    intros n (_ & Hf & _). rewrite Hf. vm_compute. discriminate.
Defined.

(** X3.  A neuron whose recruitment threshold is not below the total drive
    is not recruited: [step] leaves it at firing rate 0, lets its fatigue
    recover and counts its timer down by dt.  Since the total drive is
    clamped to at most 1, a threshold of 1 or more is never reached. *)
Theorem X3_neuron_at_or_above_drive_is_not_recruited
    (p : MotorNeuronPool.t) (dt : float) (i : nat) (n : MotorNeuronPool.Neuron) :
  (i < MotorNeuronPool.N_NEURONS)%nat ->
  MotorNeuronPool.neurons p !! i = Some n ->
  MotorNeuronPool.total_drive p <= MotorNeuronPool.recruitment_threshold n
  \/ 1 <= MotorNeuronPool.recruitment_threshold n ->
  MotorNeuronPool.neurons (MotorNeuronPool.step p dt) !! i
  = Some (MotorNeuronPool.mkNeuron 0
            (MotorNeuronPool.recruitment_threshold n)
            (fmax (MotorNeuronPool.fatigue n - dt * 0.01) 0)
            (MotorNeuronPool.after_hyperpolarization n - dt)).
Proof.
  intros Hi Hn Hth.
  assert (Hle : MotorNeuronPool.total_drive p
                <= MotorNeuronPool.recruitment_threshold n).
  { destruct Hth as [H|H]; [exact H|].
    pose proof (total_drive_range p). lra. }
  rewrite step_lookup, Hn by exact Hi. cbn [fmap option_fmap option_map].
  rewrite step_neuron_below_threshold by exact Hle. reflexivity.
Qed.

(** Neuron 50 of a fresh pool, which is not driven at all. *)
Lemma X3_neuron_at_or_above_drive_is_not_recruited_witness :
  MotorNeuronPool.neurons
    (MotorNeuronPool.step (MotorNeuronPool.new libm_q) 0.016) !! 50%nat
  = Some (MotorNeuronPool.mkNeuron 0
            (fpow libm_q (of_nat 50 / of_nat MotorNeuronPool.N_NEURONS) 1.5)
            (fmax (0 - 0.016 * 0.01) 0) (0 - 0.016)).
Proof.
  refine (X3_neuron_at_or_above_drive_is_not_recruited
            (MotorNeuronPool.new libm_q) 0.016 50
            (MotorNeuronPool.mkNeuron 0
               (fpow libm_q (of_nat 50 / of_nat MotorNeuronPool.N_NEURONS) 1.5) 0 0)
            _ _ _).
  - unfold MotorNeuronPool.N_NEURONS. lia.
  - apply new_lookup. unfold MotorNeuronPool.N_NEURONS. lia.
  - left. unfold MotorNeuronPool.total_drive, MotorNeuronPool.new.
    cbn [MotorNeuronPool.central_drive MotorNeuronPool.spindle_feedback
         MotorNeuronPool.ib_inhibition MotorNeuronPool.renshaw_inhibition
         MotorNeuronPool.recruitment_threshold].
    vm_compute. discriminate.
Defined.

(** X4.  [MotorNeuronPool::step] rewrites firing rates, fatigues and timers
    only: the number of neurons, every recruitment threshold and the five
    input terms of the pool are as before. *)
Theorem X4_step_keeps_thresholds_and_inputs (p : MotorNeuronPool.t) (dt : float) :
  let p' := MotorNeuronPool.step p dt in
  length (MotorNeuronPool.neurons p') = length (MotorNeuronPool.neurons p)
  /\ MotorNeuronPool.recruitment_threshold <$> MotorNeuronPool.neurons p'
     = MotorNeuronPool.recruitment_threshold <$> MotorNeuronPool.neurons p
  /\ MotorNeuronPool.central_drive p' = MotorNeuronPool.central_drive p
  /\ MotorNeuronPool.spindle_feedback p' = MotorNeuronPool.spindle_feedback p
  /\ MotorNeuronPool.ib_inhibition p' = MotorNeuronPool.ib_inhibition p
  /\ MotorNeuronPool.renshaw_inhibition p' = MotorNeuronPool.renshaw_inhibition p
  /\ MotorNeuronPool.tendon_force p' = MotorNeuronPool.tendon_force p.
Proof.
  intros p'. split; [apply step_length|].
  split; [|repeat split].
  apply list_eq. intros i. rewrite !list_lookup_fmap.
  subst p'. unfold MotorNeuronPool.step. cbn [MotorNeuronPool.neurons].
  rewrite (for_range_alter_lookup
             (fun _ => MotorNeuronPool.step_neuron (MotorNeuronPool.total_drive p) dt)).
  destruct (decide (i < MotorNeuronPool.N_NEURONS)%nat); [|reflexivity].
  destruct (MotorNeuronPool.neurons p !! i) as [n|]; [|reflexivity].
  cbn. f_equal. apply step_neuron_threshold.
Qed.
(* ----------------------------------------------------------------- *)
(** ** More on segments and the cord *)

Section SegmentMore.
Import MotorNeuronPool.

Lemma step_keeps_regular (p : t) (dt : float) :
  length (neurons p) = N_NEURONS -> pool_regular (step p dt).
Proof.
  intros Hlen. split.
  - rewrite step_length. exact Hlen.
  - apply Forall_lookup. intros i n' Hn'.
    pose proof (lookup_lt_Some _ _ _ Hn') as Hi.
    rewrite step_length, Hlen in Hi.
    rewrite step_lookup in Hn' by exact Hi.
    destruct (neurons p !! i) as [n|]; [|discriminate].
    injection Hn' as <-. apply step_neuron_rate_range.
Qed.

Lemma regular_average_nonneg (p : t) :
  pool_regular p -> 0 <= get_average_firing_rate p.
Proof.
  intros [_ Hall]. unfold get_average_firing_rate.
  assert (Hb : Forall (fun n => 0 <= firing_rate n <= firing_rate n) (neurons p)).
  { eapply Forall_impl; [exact Hall|]. intros n Hn. cbv beta in *. lra. }
  assert (Hsum : 0 <= foldl (fun sum n => sum + firing_rate n) 0 (neurons p)).
  { clear Hb. generalize (Qle_refl 0). generalize 0 at 2 4 as acc.
    induction Hall as [|n ns Hn _ IH]; intros acc Hacc; [exact Hacc|].
    cbn [foldl]. apply IH. lra. }
  change (of_nat N_NEURONS) with 100. apply Qle_shift_div_l; lra.
Qed.

(** What a segment step does to the two Renshaw terms: each grows by 0.3
    times the average rate the other pool had before the step. *)
Lemma segment_step_renshaw (s : SpinalSegment.t) (tq th om dt : float) :
  let s' := SpinalSegment.step s tq th om dt in
  renshaw_inhibition (SpinalSegment.flexor s')
  = renshaw_inhibition (SpinalSegment.flexor s)
    + get_average_firing_rate (SpinalSegment.extensor s) * 0.3
  /\ renshaw_inhibition (SpinalSegment.extensor s')
     = renshaw_inhibition (SpinalSegment.extensor s)
       + get_average_firing_rate (SpinalSegment.flexor s) * 0.3.
Proof. split; reflexivity. Qed.

Lemma segment_step_regular (s : SpinalSegment.t) (tq th om dt : float) :
  pool_regular (SpinalSegment.flexor s) -> pool_regular (SpinalSegment.extensor s) ->
  let s' := SpinalSegment.step s tq th om dt in
  pool_regular (SpinalSegment.flexor s') /\ pool_regular (SpinalSegment.extensor s').
Proof.
  intros [Hf _] [He _]. split; apply step_keeps_regular; assumption.
Qed.

End SegmentMore.

(** X5.  After [SpinalSegment::step] the two pools are driven as
    antagonists: both central drives lie in [0, 1], at most one of them is
    non-zero, and the extensor's spindle feedback is the negated flexor's. *)
Theorem X5_segment_drives_are_antagonistic
    (s : SpinalSegment.t) (desired_torque joint_angle joint_velocity dt : float) :
  let s' := SpinalSegment.step s desired_torque joint_angle joint_velocity dt in
  let cf := MotorNeuronPool.central_drive (SpinalSegment.flexor s') in
  let ce := MotorNeuronPool.central_drive (SpinalSegment.extensor s') in
  (cf == 0 \/ ce == 0)
  /\ 0 <= cf <= 1 /\ 0 <= ce <= 1
  /\ MotorNeuronPool.spindle_feedback (SpinalSegment.extensor s')
     = - MotorNeuronPool.spindle_feedback (SpinalSegment.flexor s').
Proof.
  intros s' cf ce.
  change cf with (fclamp (fmax desired_torque 0) 0 1).
  change ce with (fclamp (fmax (- desired_torque) 0) 0 1).
  split; [|split; [apply fclamp_bounds; lra|split; [apply fclamp_bounds; lra|reflexivity]]].
  destruct (fmax_cases desired_torque 0) as [[H1 ->]|[H1 ->]];
    destruct (fmax_cases (- desired_torque) 0) as [[H2 ->]|[H2 ->]].
  - left. reflexivity.
  - left. reflexivity.
  - right. reflexivity.
  - left. destruct (fclamp_cases desired_torque 0 1) as [[_ ->]|[(_ & H & _)|(_ & _ & ->)]];
      lra.
Qed.

(** X6.  The Renshaw term is only ever added to.  For a segment whose
    pools have their 100 neurons and no negative firing rate, any sequence
    of steps leaves the Renshaw inhibition of each pool at least where it
    started. *)
Theorem X6_renshaw_inhibition_never_decreases
    (s : SpinalSegment.t) (inputs : list (float * float * float * float)) :
  pool_regular (SpinalSegment.flexor s) ->
  pool_regular (SpinalSegment.extensor s) ->
  let s' := run_segment_steps s inputs in
  MotorNeuronPool.renshaw_inhibition (SpinalSegment.flexor s)
  <= MotorNeuronPool.renshaw_inhibition (SpinalSegment.flexor s')
  /\ MotorNeuronPool.renshaw_inhibition (SpinalSegment.extensor s)
     <= MotorNeuronPool.renshaw_inhibition (SpinalSegment.extensor s').
Proof.
  revert s. induction inputs as [|[[[tq th] om] dt] inputs IH]; intros s Hf He.
  - cbn. lra.
  - cbv zeta.
    change (run_segment_steps s ((tq, th, om, dt) :: inputs))
      with (run_segment_steps (SpinalSegment.step s tq th om dt) inputs).
    destruct (segment_step_regular s tq th om dt Hf He) as [Hf' He'].
    specialize (IH _ Hf' He'). cbv zeta in IH.
    destruct (segment_step_renshaw s tq th om dt) as [Rf Re].
    rewrite Rf, Re in IH.
    pose proof (regular_average_nonneg _ Hf).
    pose proof (regular_average_nonneg _ He).
    lra.
Qed.

Lemma new_pool_regular (libm : Libm) : pool_regular (MotorNeuronPool.new libm).
Proof.
  split; [apply new_length|].
  eapply Forall_impl; [apply new_pool_fresh|].
  intros n (Hr & _). rewrite Hr. discriminate.
Qed.

Lemma X6_renshaw_inhibition_never_decreases_witness :
  let s' := run_segment_steps (SpinalSegment.new libm_q)
              [(1, 0, 0, 0.016); (1, 0, 0, 0.016)] in
  MotorNeuronPool.renshaw_inhibition (SpinalSegment.flexor (SpinalSegment.new libm_q))
  <= MotorNeuronPool.renshaw_inhibition (SpinalSegment.flexor s')
  /\ MotorNeuronPool.renshaw_inhibition (SpinalSegment.extensor (SpinalSegment.new libm_q))
     <= MotorNeuronPool.renshaw_inhibition (SpinalSegment.extensor s').
Proof.
  apply X6_renshaw_inhibition_never_decreases; exact (new_pool_regular libm_q).
Defined.

(** X7.  When the torque vector has one entry per segment,
    [SpinalCord::step] steps segment [i] with torque [i], joint angle 0 and
    joint velocity 0, and the cord keeps its number of segments. *)
Theorem X7_cord_step_steps_each_segment
    (c : SpinalCord.t) (desired_torques : list float) (dt : float)
    (i : nat) (s : SpinalSegment.t) (tq : float) :
  length desired_torques = length (SpinalCord.segments c) ->
  SpinalCord.segments c !! i = Some s ->
  desired_torques !! i = Some tq ->
  SpinalCord.segments (SpinalCord.step c desired_torques dt) !! i
  = Some (SpinalSegment.step s tq 0 0 dt)
  /\ length (SpinalCord.segments (SpinalCord.step c desired_torques dt))
     = length (SpinalCord.segments c).
Proof.
  intros Hlen Hs Htq. unfold SpinalCord.step.
  rewrite Hlen, Nat.eqb_refl. cbn [negb SpinalCord.segments].
  split.
  - rewrite (for_range_alter_lookup
               (fun i s => SpinalSegment.step s (default 0 (desired_torques !! i)) 0 0 dt)).
    pose proof (lookup_lt_Some _ _ _ Hs) as Hi.
    destruct (decide (i < length (SpinalCord.segments c))%nat); [|contradiction].
    rewrite Hs, Htq. reflexivity.
  - apply (for_range_alter_length
             (fun i s => SpinalSegment.step s (default 0 (desired_torques !! i)) 0 0 dt)).
Qed.

Lemma X7_cord_step_steps_each_segment_witness :
  SpinalCord.segments (SpinalCord.step (SpinalCord.new libm_q 2) [1; -1] 0.016) !! 1%nat
  = Some (SpinalSegment.step (SpinalSegment.new libm_q) (-1) 0 0 0.016)
  /\ length (SpinalCord.segments (SpinalCord.step (SpinalCord.new libm_q 2) [1; -1] 0.016))
     = length (SpinalCord.segments (SpinalCord.new libm_q 2)).
Proof.
  apply X7_cord_step_steps_each_segment; reflexivity.
Defined.
(* ----------------------------------------------------------------- *)
(** ** More on mood and appraisal *)

(** X8.  Whatever the accumulators, dt and instant emotion,
    [MoodDynamics::update] leaves a state whose depression and stress lie in
    [0, 1], valence in [0.5, 1] and arousal in [0, 0.3]. *)
Theorem X8_mood_state_ranges
    (libm : Libm) (m : MoodDynamics.t) (dt : float) (e : EmotionProfile.t) :
  let st := MoodDynamics.get_state (MoodDynamics.update libm m dt e) in
  0 <= EmotionProfile.depression st <= 1
  /\ 0 <= EmotionProfile.stress st <= 1
  /\ 0.5 <= EmotionProfile.valence st <= 1
  /\ 0 <= EmotionProfile.arousal st <= 0.3.
Proof.
  intros st. subst st. unfold MoodDynamics.get_state, MoodDynamics.update.
  cbn [EmotionProfile.depression EmotionProfile.stress EmotionProfile.valence
       EmotionProfile.arousal MoodDynamics.depression_accumulator
       MoodDynamics.stress_accumulator].
  match goal with
  | |- context [fclamp ?d 0 1 * 0.5] =>
      pose proof (fclamp_bounds d 0 1) as Hd
  end.
  match goal with
  | |- context [fclamp ?s 0 1 * 0.3] =>
      pose proof (fclamp_bounds s 0 1) as Hs
  end.
  assert (H01 : 0 <= 1) by lra. specialize (Hd H01). specialize (Hs H01).
  repeat split; lra.
Qed.

Section AppraisalMore.
Import EmotionProfile CognitiveAppraiser.

(** The channels [primary_appraisal] never writes. *)
Lemma primary_appraisal_untouched (stim : Stimulus) :
  disgust (primary_appraisal stim) = 0
  /\ anticipation (primary_appraisal stim) = 0.
Proof.
  unfold primary_appraisal.
  destruct (String.eqb (category stim) "threat" || String.eqb (category stim) "enemy")%bool;
    [split; reflexivity|].
  destruct (String.eqb (category stim) "reward" || String.eqb (category stim) "friend")%bool;
    [split; reflexivity|].
  destruct (String.eqb (category stim) "loss"); split; reflexivity.
Qed.

(** The profile [appraise] returns is one of two shapes. *)
Lemma appraise_shape (stim : Stimulus) (ctx : AnimationContext) :
  emotion (appraise stim ctx) = EmotionProfile.new
  \/ exists sh ax,
       emotion (appraise stim ctx)
       = EmotionProfile.mk
           (set_fear (fear (primary_appraisal stim)
                      * (1 + emotion_mood_stress ctx * 0.5))
                     (primary_appraisal stim))
           (mkSocial 0 sh 0 0 0 0 0 ax) Mood0
       /\ ~ urgency stim * intensity stim < 0.2.
Proof.
  unfold appraise.
  destruct (fltb (urgency stim * intensity stim) 0.2) eqn:Hrel; [left; reflexivity|].
  right. apply not_true_iff_false in Hrel. rewrite fltb_lt in Hrel.
  destruct (fltb (secondary_appraisal stim ctx) 0.3 && fltb 0.6 (intensity stim));
    eexists; eexists; (split; [reflexivity|exact Hrel]).
Qed.

End AppraisalMore.

(** X9.  [CognitiveAppraiser::appraise] only ever writes the primary
    channels joy, sadness, anger, fear, surprise, trust and the social
    channels shame and anxiety: in every profile it returns, disgust,
    anticipation, guilt, pride, envy, gratitude, love, hate and all four mood
    fields are 0. *)
Theorem X9_appraise_leaves_other_channels_zero
    (stim : Stimulus) (ctx : AnimationContext) :
  let e := CognitiveAppraiser.emotion (CognitiveAppraiser.appraise stim ctx) in
  EmotionProfile.disgust (EmotionProfile.primary e) = 0
  /\ EmotionProfile.anticipation (EmotionProfile.primary e) = 0
  /\ EmotionProfile.guilt (EmotionProfile.social e) = 0
  /\ EmotionProfile.pride (EmotionProfile.social e) = 0
  /\ EmotionProfile.envy (EmotionProfile.social e) = 0
  /\ EmotionProfile.gratitude (EmotionProfile.social e) = 0
  /\ EmotionProfile.love (EmotionProfile.social e) = 0
  /\ EmotionProfile.hate (EmotionProfile.social e) = 0
  /\ EmotionProfile.mood e = EmotionProfile.Mood0.
Proof.
  intros e. subst e.
  destruct (appraise_shape stim ctx) as [->|(sh & ax & -> & _)].
  - repeat split.
  - destruct (primary_appraisal_untouched stim) as [Hd Ha].
    cbn. repeat split; assumption.
Qed.

(** X10.  For a stimulus that is neither threat nor enemy, with intensity
    and familiarity in [0, 1], every primary channel of the appraisal lies in
    [0, 1], in every context. *)
Theorem X10_non_threat_primary_channels_in_range
    (stim : Stimulus) (ctx : AnimationContext) :
  category stim <> "threat" -> category stim <> "enemy" ->
  0 <= intensity stim <= 1 -> 0 <= familiarity stim <= 1 ->
  Forall (fun x => 0 <= x <= 1)
         (EmotionProfile.primary_channels
            (EmotionProfile.primary
               (CognitiveAppraiser.emotion (CognitiveAppraiser.appraise stim ctx)))).
Proof.
  intros H1 H2 HI HF.
  assert (Hprim : Forall (fun x => 0 <= x <= 1)
                    (EmotionProfile.primary_channels
                       (CognitiveAppraiser.primary_appraisal stim))
                  /\ EmotionProfile.fear (CognitiveAppraiser.primary_appraisal stim) = 0).
  { unfold CognitiveAppraiser.primary_appraisal.
    apply String.eqb_neq in H1, H2. rewrite H1, H2. cbn [orb].
    destruct (String.eqb (category stim) "reward" || String.eqb (category stim) "friend")%bool;
      [|destruct (String.eqb (category stim) "loss")];
      (split; [|reflexivity]); cbn;
      repeat (apply Forall_cons; split; [cbn; split; try lra; try nra|]);
      constructor. }
  destruct Hprim as [Hall Hfear].
  destruct (appraise_shape stim ctx) as [->|(sh & ax & -> & _)].
  - cbn. repeat (apply Forall_cons; split; [cbn; lra|]). constructor.
  - rewrite Hfear.
    unfold EmotionProfile.primary_channels in *. cbn in *.
    repeat match goal with
           | H : Forall _ (_ :: _) |- _ => apply Forall_cons in H as [? H]
           end.
    repeat (apply Forall_cons; split; [first [assumption | nra]|]).
    constructor.
Qed.

Lemma X10_non_threat_primary_channels_in_range_witness :
  Forall (fun x => 0 <= x <= 1)
         (EmotionProfile.primary_channels
            (EmotionProfile.primary
               (CognitiveAppraiser.emotion
                  (CognitiveAppraiser.appraise reward_stimulus baseline_ctx)))).
Proof.
  apply X10_non_threat_primary_channels_in_range;
    try (cbn; discriminate); split; vm_compute; discriminate.
Defined.
(* ----------------------------------------------------------------- *)
(** ** More on fibers and muscles *)

Lemma fclamp_Qeq (v v' lo hi : float) :
  v == v' -> fclamp v lo hi == fclamp v' lo hi.
Proof.
  intros Heq.
  destruct (fclamp_cases v lo hi) as [[H1 ->]|[(H1 & H2 & ->)|(H1 & H2 & ->)]];
    destruct (fclamp_cases v' lo hi) as [[H1' ->]|[(H1' & H2' & ->)|(H1' & H2' & ->)]];
    lra.
Qed.

Lemma fclamp_unit_zero (v : float) : v == 0 -> fclamp v 0 1 == 0.
Proof. intros H. rewrite (fclamp_Qeq v 0 0 1 H). reflexivity. Qed.

Lemma rd_all_zero (l : list float) :
  Forall (fun x => x == 0) l <-> (forall j, rd l j == 0).
Proof.
  split.
  - intros H j. unfold rd. destruct (l !! j) as [x|] eqn:Hx; [|reflexivity].
    exact (Forall_lookup_1 _ _ _ _ H Hx).
  - intros H. apply Forall_lookup. intros j x Hx.
    specialize (H j). unfold rd in H. rewrite Hx in H. exact H.
Qed.

Lemma rd_insert_cases (l : list float) (i j : nat) (x : float) :
  rd (<[i := x]> l) j = x \/ rd (<[i := x]> l) j = rd l j.
Proof.
  destruct (decide (i = j)) as [->|Hne].
  - destruct (decide (j < length l)%nat).
    + left. apply rd_insert_eq. assumption.
    + right. rewrite list_insert_ge by lia. reflexivity.
  - right. apply rd_insert_ne. assumption.
Qed.

Section FiberMore.
Import HuxleyFiber.
Variable libm : Libm.

Lemma step_F_ce (G : Z) (fb : t) (activation len velocity dt : float) :
  F_ce (step libm G fb activation len velocity dt)
  = let sum_force :=
      snd (for_range (Z.to_nat G)
             (bin_body libm G (params fb) activation
                       (velocity / v_max (params fb)) dt)
             (start_grid G fb, 0)) in
    if fltb 0 velocity
    then sum_force + a (params fb) * velocity / (b (params fb) + velocity)
    else sum_force.
Proof.
  unfold step. destruct (for_range _ _ _) as [ns sum]. reflexivity.
Qed.

(** With no activation, a grid of zeros and a zero force sum are kept by
    every iteration of the bin loop. *)
Lemma bin_loop_relaxed (G : Z) (p : Params) (act v_rel dt : float)
    (k : nat) (ns : list float) (sum : float) :
  act == 0 -> (forall j, rd ns j == 0) -> sum == 0 ->
  (forall j, rd (fst (for_range k (bin_body libm G p act v_rel dt) (ns, sum))) j == 0)
  /\ snd (for_range k (bin_body libm G p act v_rel dt) (ns, sum)) == 0.
Proof.
  intros Hact Hns Hsum. induction k as [|k [IHn IHs]]; [split; assumption|].
  rewrite for_range_S.
  destruct (for_range k _ _) as [ns' sum']. cbn [fst snd] in *.
  cbn [bin_body fst snd].
  set (v := rd ns' k + _).
  assert (Hv : v == 0).
  { subst v. unfold rate_f.
    rewrite Hact, (IHn k), (IHn (i_right G k)), (IHn (i_left k)).
    unfold DX, Qdiv. ring. }
  pose proof (fclamp_unit_zero v Hv) as Hni.
  split.
  - intros j. destruct (rd_insert_cases ns' k j (fclamp v 0 1)) as [-> | ->];
      [exact Hni|apply IHn].
  - rewrite Hni, IHs. ring.
Qed.

Lemma start_grid_relaxed (G : Z) (fb : t) :
  Forall (fun x => x == 0) (n fb) -> Forall (fun x => x == 0) (start_grid G fb).
Proof.
  intros H. unfold start_grid.
  destruct (negb _); [|exact H].
  apply Forall_resize; [reflexivity|exact H].
Qed.

End FiberMore.

(** X11.  A relaxed fiber stays relaxed: stepped with activation 0, a
    fiber whose bins are all 0 has all bins 0 again, whatever the grid size,
    velocity and dt; and if the velocity is not positive its force is 0. *)
Theorem X11_relaxed_fiber_stays_relaxed
    (libm : Libm) (G : Z) (fb : HuxleyFiber.t) (len velocity dt : float) :
  Forall (fun x => x == 0) (HuxleyFiber.n fb) ->
  let fb' := HuxleyFiber.step libm G fb 0 len velocity dt in
  Forall (fun x => x == 0) (HuxleyFiber.n fb')
  /\ (velocity <= 0 -> HuxleyFiber.get_force fb' == 0).
Proof.
  intros Hz fb'. subst fb'.
  pose proof (proj1 (rd_all_zero _) (start_grid_relaxed G fb Hz)) as H0.
  destruct (bin_loop_relaxed libm G (HuxleyFiber.params fb) 0
              (velocity / HuxleyFiber.v_max (HuxleyFiber.params fb)) dt
              (Z.to_nat G) (HuxleyFiber.start_grid G fb) 0
              (Qeq_refl 0) H0 (Qeq_refl 0)) as [Hn Hs].
  split.
  - rewrite step_n. apply rd_all_zero. exact Hn.
  - intros Hv. unfold HuxleyFiber.get_force. rewrite step_F_ce. cbv zeta.
    destruct (fltb 0 velocity) eqn:Hpos; [apply fltb_lt in Hpos; lra|exact Hs].
Qed.

Lemma X11_relaxed_fiber_stays_relaxed_witness :
  let fb' := HuxleyFiber.step libm_q 10 (HuxleyFiber.new 10) 0 0.3 0 0.016 in
  Forall (fun x => x == 0) (HuxleyFiber.n fb')
  /\ (0 <= 0 -> HuxleyFiber.get_force fb' == 0).
Proof.
  apply X11_relaxed_fiber_stays_relaxed.
  apply (Forall_forallb (fun x => Qeq_bool x 0)).
  - intros x. apply Qeq_bool_eq.
  - vm_compute. reflexivity.
Defined.

(** X12.  At velocity 0 the in-place bin loop and the simultaneous update
    agree: for every grid size, fiber, activation and dt, the grid
    [HuxleyFiber::step] leaves equals, bin for bin, the simultaneous update of
    the grid it started from. *)
Theorem X12_zero_velocity_step_is_simultaneous
    (libm : Libm) (G : Z) (fb : HuxleyFiber.t) (activation len dt : float) :
  Forall2 Qeq
    (HuxleyFiber.n (HuxleyFiber.step libm G fb activation len 0 dt))
    (simultaneous_update libm G (HuxleyFiber.params fb) activation
       (0 / HuxleyFiber.v_max (HuxleyFiber.params fb)) dt
       (HuxleyFiber.start_grid G fb)).
Proof.
  apply Forall2_same_length_lookup_2.
  - rewrite step_grid_length. unfold simultaneous_update.
    rewrite length_imap, start_grid_length. reflexivity.
  - intros i x y Hx Hy.
    pose proof (lookup_lt_Some _ _ _ Hx) as Hi. rewrite step_grid_length in Hi.
    assert (Hrd : rd (HuxleyFiber.n (HuxleyFiber.step libm G fb activation len 0 dt)) i = x).
    { unfold rd. rewrite Hx. reflexivity. }
    rewrite <- Hrd. clear Hrd Hx.
    rewrite (step_bin_sweep libm G fb activation len 0 dt i Hi).
    unfold simultaneous_update in Hy. rewrite list_lookup_imap in Hy.
    assert (Hn0 : HuxleyFiber.start_grid G fb !! i
                  = Some (rd (HuxleyFiber.start_grid G fb) i)).
    { unfold rd. destruct (HuxleyFiber.start_grid G fb !! i) eqn:E; [reflexivity|].
      apply lookup_ge_None in E. rewrite start_grid_length in E. lia. }
    rewrite Hn0 in Hy. cbn [fmap option_fmap option_map] in Hy.
    injection Hy as <-.
    apply fclamp_Qeq. unfold Qdiv. ring.
Qed.

Section MuscleMore.
Variable libm : Libm.


End MuscleMore.

(* ----------------------------------------------------------------- *)
(** ** More on metabolism *)

(** X14.  For every metabolic state, [get_fatigue_factor] lies in [0, 1]
    and [get_perceived_exertion] on the Borg scale in [6, 20]; and after any
    [update] the predicted recovery time is not negative. *)
Theorem X14_fatigue_and_exertion_ranges
    (libm : Libm) (s : MetabolicSystem.t) (muscle_activation dt : float) :
  0 <= MetabolicSystem.get_fatigue_factor s <= 1
  /\ 6 <= MetabolicSystem.get_perceived_exertion s <= 20
  /\ 0 <= get_recovery_time (MetabolicSystem.update libm s muscle_activation dt).
Proof.
  assert (Hf : 0 <= MetabolicSystem.get_fatigue_factor s <= 1).
  { unfold MetabolicSystem.get_fatigue_factor. apply fclamp_bounds. lra. }
  split; [exact Hf|]. split.
  - unfold MetabolicSystem.get_perceived_exertion. lra.
  - unfold get_recovery_time, MetabolicSystem.update.
    cbn [MetabolicSystem.PCr MetabolicSystem.lactate].
    match goal with
    | |- context [1 - fclamp ?v 0.3 1] =>
        pose proof (fclamp_bounds v 0.3 1) as Hp
    end.
    assert (H31 : 0.3 <= 1) by lra. specialize (Hp H31).
    match goal with
    | |- 0 <= fmax ?x ?y =>
        assert (Hx : 0 <= x)
          by (apply Qle_shift_div_l; [vm_compute; reflexivity|lra]);
        destruct (fmax_cases x y) as [[Hlt ->]|[_ ->]]; lra
    end.
Qed.

(** X15.  [smoothstep] between two ordered edges stays in [0, 1], is 0 at
    and below the lower edge and 1 at and above the upper edge. *)
Theorem X15_smoothstep_range_and_saturation (x edge0 edge1 : float) :
  edge0 < edge1 ->
  0 <= smoothstep x edge0 edge1 <= 1
  /\ (x <= edge0 -> smoothstep x edge0 edge1 == 0)
  /\ (edge1 <= x -> smoothstep x edge0 edge1 == 1).
Proof.
  intros Hedge. unfold smoothstep.
  set (r := (x - edge0) / (edge1 - edge0)).
  pose proof (fclamp_bounds r 0 1) as Ht.
  assert (H01 : 0 <= 1) by lra. specialize (Ht H01).
  split; [|split].
  - set (t := fclamp r 0 1) in *.
    assert (Hsq : 0 <= t * t) by (apply Qmult_le_0_compat; lra).
    assert (Hsq' : 0 <= (1 - t) * (1 - t)) by (apply Qmult_le_0_compat; lra).
    assert (Hlow : 0 <= t * t * (3 - 2 * t)) by (apply Qmult_le_0_compat; lra).
    assert (Hup : 0 <= (1 - t) * (1 - t) * (1 + 2 * t))
      by (apply Qmult_le_0_compat; lra).
    assert (E : 1 - t * t * (3 - 2 * t) == (1 - t) * (1 - t) * (1 + 2 * t)) by ring.
    split; lra.
  - intros Hx.
    assert (Hr : r <= 0).
    { subst r. apply Qle_shift_div_r; lra. }
    destruct (fclamp_cases r 0 1) as [[_ ->]|[(H1 & H2 & _)|(H1 & _ & ->)]].
    + reflexivity.
    + lra.
    + assert (r == 0) as -> by lra. reflexivity.
  - intros Hx.
    assert (Hr : 1 <= r).
    { subst r. apply Qle_shift_div_l; lra. }
    destruct (fclamp_cases r 0 1) as [[H1 _]|[(_ & _ & ->)|(_ & H2 & ->)]].
    + lra.
    + reflexivity.
    + assert (r == 1) as -> by lra. reflexivity.
Qed.

(** The oxidative delay of the metabolism, 30 s after exercise. *)
Lemma X15_smoothstep_range_and_saturation_witness :
  0 <= smoothstep 45 0 30 <= 1
  /\ (45 <= 0 -> smoothstep 45 0 30 == 0)
  /\ (30 <= 45 -> smoothstep 45 0 30 == 1).
Proof.
  apply X15_smoothstep_range_and_saturation. vm_compute. reflexivity.
Defined.

Section MetabolismMore.
Import MetabolicSystem.
Variable libm : Libm.

(** With no activation, full ATP and PCr stores are a fixed point of the
    first two balance equations. *)
Lemma idle_update_keeps_stores (s : t) (activation dt : float) :
  activation == 0 -> ATP s == 1 -> PCr s == 1 ->
  ATP (update libm s activation dt) == 1 /\ PCr (update libm s activation dt) == 1.
Proof.
  intros Ha HA HP. unfold update. cbn [ATP PCr]. split.
  - match goal with
    | |- fclamp ?v 0 1 == 1 =>
        assert (Hv : v == 1)
          by (rewrite Ha, HA, HP; unfold k_ATPase, k_CK; ring);
        rewrite (fclamp_Qeq v 1 0 1 Hv)
    end.
    reflexivity.
  - match goal with
    | |- fclamp ?v 0.3 1 == 1 =>
        assert (Hv : v == 1)
          by (rewrite HA, HP; unfold k_CK; ring);
        rewrite (fclamp_Qeq v 1 0.3 1 Hv)
    end.
    reflexivity.
Qed.

End MetabolismMore.

(** X16.  At rest the energy stores are not touched: starting from full
    ATP and PCr, any sequence of [update] calls with activation 0 (any dt)
    leaves ATP and PCr at 1. *)
Theorem X16_idle_keeps_ATP_and_PCr_full
    (libm : Libm) (s : MetabolicSystem.t) (calls : list (float * float)) :
  MetabolicSystem.ATP s == 1 -> MetabolicSystem.PCr s == 1 ->
  Forall (fun c => fst c == 0) calls ->
  MetabolicSystem.ATP (run_metabolism libm s calls) == 1
  /\ MetabolicSystem.PCr (run_metabolism libm s calls) == 1.
Proof.
  intros HA HP Hcalls. revert s HA HP.
  induction Hcalls as [|[a dt] calls Ha _ IH]; intros s HA HP.
  - split; assumption.
  - change (run_metabolism libm s ((a, dt) :: calls))
      with (run_metabolism libm (MetabolicSystem.update libm s a dt) calls).
    destruct (idle_update_keeps_stores libm s a dt Ha HA HP) as [HA' HP'].
    apply IH; assumption.
Qed.

Lemma X16_idle_keeps_ATP_and_PCr_full_witness :
  MetabolicSystem.ATP
    (run_metabolism libm_q MetabolicSystem.new [(0, 0.064); (0, 0.064)]) == 1
  /\ MetabolicSystem.PCr
       (run_metabolism libm_q MetabolicSystem.new [(0, 0.064); (0, 0.064)]) == 1.
Proof.
  apply X16_idle_keeps_ATP_and_PCr_full.
  - reflexivity.
  - reflexivity.
  - repeat constructor.
Defined.
(* ----------------------------------------------------------------- *)
(** ** More on the tendon *)

Section TendonMore.
Import TendonNonlinear.
Variable libm : Libm.

(** The Prony loop rewrites strain memories only. *)
Lemma prony_loop_keeps_constants (strain dt : float) (k : nat)
    (ts : list PronyTerm) (sigma : float) :
  let ts' := fst (for_range k (prony_body libm strain dt) (ts, sigma)) in
  modulus <$> ts' = modulus <$> ts /\ tau <$> ts' = tau <$> ts.
Proof.
  induction k as [|k [IHm IHt]]; [split; reflexivity|].
  cbv zeta. rewrite for_range_S.
  destruct (for_range k _ _) as [ts' sigma']. cbn [fst] in *.
  unfold prony_body.
  destruct (ts' !! k) as [tm|] eqn:Hk; cbn [fst]; [|split; assumption].
  rewrite !list_fmap_insert. cbn [modulus tau].
  rewrite !list_insert_id by (rewrite list_lookup_fmap, Hk; reflexivity).
  split; assumption.
Qed.

Lemma compute_stress_frame (tn : t) (strain strain_rate dt : float) :
  let tn' := fst (compute_stress libm tn strain strain_rate dt) in
  modulus <$> terms tn' = modulus <$> terms tn
  /\ tau <$> terms tn' = tau <$> terms tn
  /\ E_linear tn' = E_linear tn
  /\ E_nonlinear tn' = E_nonlinear tn
  /\ epsilon_max tn' = epsilon_max tn
  /\ viscosity tn' = viscosity tn
  /\ last_strain tn' = strain
  /\ dt_accum tn' = dt_accum tn + dt
  /\ hysteresis_loss tn <= hysteresis_loss tn'.
Proof.
  cbv zeta. unfold compute_stress.
  pose proof (prony_loop_keeps_constants strain dt N_TERMS (terms tn) 0) as Hloop.
  cbv zeta in Hloop.
  destruct (for_range N_TERMS _ _) as [ts sigma]. cbn [fst] in *.
  cbn [terms E_linear E_nonlinear epsilon_max viscosity last_strain dt_accum
       hysteresis_loss].
  destruct Hloop as [Hm Ht].
  repeat split; try assumption.
  destruct (fltb _ 0); [|lra].
  match goal with |- _ <= _ + Qabs ?v => pose proof (Qabs_nonneg v) end. lra.
Qed.

Lemma run_stress_calls_frame (tn : t) (calls : list (float * float * float)) :
  let tn' := run_stress_calls libm tn calls in
  E_nonlinear tn' = E_nonlinear tn
  /\ epsilon_max tn' = epsilon_max tn
  /\ E_linear tn' = E_linear tn
  /\ modulus <$> terms tn' = modulus <$> terms tn
  /\ tau <$> terms tn' = tau <$> terms tn
  /\ hysteresis_loss tn <= hysteresis_loss tn'.
Proof.
  revert tn. induction calls as [|[[s r] d] calls IH]; intros tn.
  - cbn. repeat split. lra.
  - cbv zeta.
    change (run_stress_calls libm tn ((s, r, d) :: calls))
      with (run_stress_calls libm (fst (compute_stress libm tn s r d)) calls).
    specialize (IH (fst (compute_stress libm tn s r d))). cbv zeta in IH.
    destruct IH as (I1 & I2 & I3 & I4 & I5 & I6).
    destruct (compute_stress_frame tn s r d) as (F1 & F2 & F3 & F4 & F5 & _ & _ & _ & F9).
    rewrite I1, I2, I3, I4, I5. repeat split; try assumption. lra.
Qed.

End TendonMore.

(** X17.  The stress [compute_stress] returns is saturated: for a tendon
    with a non-negative non-linear modulus, after any earlier calls and for
    any strain, strain rate and dt, it lies between 0 and
    [E_nonlinear * epsilon_max^2] (5.12e8 Pa for the default tendon). *)
Theorem X17_stress_is_saturated
    (libm : Libm) (tn : TendonNonlinear.t)
    (calls : list (float * float * float)) (strain strain_rate dt : float) :
  0 <= TendonNonlinear.E_nonlinear tn ->
  0 <= snd (TendonNonlinear.compute_stress libm (run_stress_calls libm tn calls)
              strain strain_rate dt)
    <= TendonNonlinear.E_nonlinear tn * TendonNonlinear.epsilon_max tn
       * TendonNonlinear.epsilon_max tn.
Proof.
  intros HE.
  destruct (compute_stress_result libm (run_stress_calls libm tn calls)
              strain strain_rate dt) as [sigma ->].
  destruct (run_stress_calls_frame libm tn calls) as (-> & -> & _).
  apply fclamp_bounds.
  assert (0 <= TendonNonlinear.epsilon_max tn * TendonNonlinear.epsilon_max tn) by nra.
  rewrite <- Qmult_assoc. apply Qmult_le_0_compat; assumption.
Qed.

Lemma X17_stress_is_saturated_witness :
  0 <= snd (TendonNonlinear.compute_stress libm_q
              (run_stress_calls libm_q TendonNonlinear.new [(0.05, 0.1, 0.001)])
              0.2 50 0.001)
    <= TendonNonlinear.E_nonlinear TendonNonlinear.new
       * TendonNonlinear.epsilon_max TendonNonlinear.new
       * TendonNonlinear.epsilon_max TendonNonlinear.new.
Proof.
  apply X17_stress_is_saturated. vm_compute. discriminate.
Defined.

(** X18.  The hysteresis loss of a tendon never decreases: after any
    sequence of [compute_stress] calls it is at least what it was. *)
Theorem X18_hysteresis_loss_never_decreases
    (libm : Libm) (tn : TendonNonlinear.t) (calls : list (float * float * float)) :
  TendonNonlinear.get_hysteresis_loss tn
  <= TendonNonlinear.get_hysteresis_loss (run_stress_calls libm tn calls).
Proof.
  unfold TendonNonlinear.get_hysteresis_loss.
  apply (run_stress_calls_frame libm tn calls).
Qed.

(** X19.  [compute_stress] changes strain memories, the last strain, the
    loss and the accumulated time only: the Prony moduli and time constants,
    the elastic parameters (so [get_stiffness]), and the viscosity are as
    before; the last strain is the strain just passed (unclamped) and the
    accumulated time grew by dt. *)
Theorem X19_compute_stress_keeps_material_constants
    (libm : Libm) (tn : TendonNonlinear.t) (strain strain_rate dt : float) :
  let tn' := fst (TendonNonlinear.compute_stress libm tn strain strain_rate dt) in
  TendonNonlinear.modulus <$> TendonNonlinear.terms tn'
  = TendonNonlinear.modulus <$> TendonNonlinear.terms tn
  /\ TendonNonlinear.tau <$> TendonNonlinear.terms tn'
     = TendonNonlinear.tau <$> TendonNonlinear.terms tn
  /\ TendonNonlinear.get_stiffness tn' = TendonNonlinear.get_stiffness tn
  /\ TendonNonlinear.E_nonlinear tn' = TendonNonlinear.E_nonlinear tn
  /\ TendonNonlinear.epsilon_max tn' = TendonNonlinear.epsilon_max tn
  /\ TendonNonlinear.viscosity tn' = TendonNonlinear.viscosity tn
  /\ TendonNonlinear.last_strain tn' = strain
  /\ TendonNonlinear.dt_accum tn' = TendonNonlinear.dt_accum tn + dt.
Proof.
  intros tn'. subst tn'.
  destruct (compute_stress_frame libm tn strain strain_rate dt)
    as (F1 & F2 & F3 & F4 & F5 & F6 & F7 & F8 & _).
  repeat split; assumption.
Qed.
(* ----------------------------------------------------------------- *)
(** ** More on the engine *)

(** X20.  [Engine::initialize] is a latch: after a first call the engine
    is marked initialised, and any further call, with any configuration,
    changes nothing. *)
Theorem X20_initialize_is_a_latch (cfg1 cfg2 : Config) (g : Globals) :
  s_initialized (Engine.initialize cfg1 g) = true
  /\ Engine.initialize cfg2 (Engine.initialize cfg1 g) = Engine.initialize cfg1 g.
Proof.
  unfold Engine.initialize.
  destruct (s_initialized g) eqn:Hinit.
  - split; [exact Hinit|]. rewrite Hinit. reflexivity.
  - split; reflexivity.
Qed.

(** X21.  The first [Engine::initialize] stores the configuration and sets
    the grid size of its accuracy tier, one of 10, 100, 200 and 1000; a fiber
    constructed afterwards has that many bins, all 0. *)
Theorem X21_first_initialize_sets_tier_grid (cfg : Config) (g : Globals) :
  s_initialized g = false ->
  let g' := Engine.initialize cfg g in
  t_config g' = cfg
  /\ GRID_SIZE g' = Engine.grid_size_of (accuracy cfg)
  /\ In (GRID_SIZE g') [10; 100; 200; 1000]%Z
  /\ HuxleyFiber.n (HuxleyFiber.new (GRID_SIZE g'))
     = replicate (Z.to_nat (Engine.grid_size_of (accuracy cfg))) 0.
Proof.
  intros Hinit g'. subst g'. unfold Engine.initialize. rewrite Hinit.
  cbn [set_global_grid_size GRID_SIZE t_config].
  split; [reflexivity|]. split; [reflexivity|]. split.
  - destruct (accuracy cfg); cbn; tauto.
  - unfold HuxleyFiber.new. cbn [HuxleyFiber.n]. apply resize_nil.
Qed.

Lemma X21_first_initialize_sets_tier_grid_witness :
  let g' := Engine.initialize default_config initial_globals in
  t_config g' = default_config
  /\ GRID_SIZE g' = Engine.grid_size_of (accuracy default_config)
  /\ In (GRID_SIZE g') [10; 100; 200; 1000]%Z
  /\ HuxleyFiber.n (HuxleyFiber.new (GRID_SIZE g'))
     = replicate (Z.to_nat (Engine.grid_size_of (accuracy default_config))) 0.
Proof.
  apply X21_first_initialize_sets_tier_grid. reflexivity.
Defined.

(* ----------------------------------------------------------------- *)
(** ** More on the actor's frame *)

Section FrameMore.
Import PhysiologicalActor.

Lemma appraise_all_blend_limited (stimuli : list Stimulus) :
  blend_limited (appraise_all stimuli).
Proof.
  unfold appraise_all.
  assert (H0 : blend_limited EmotionProfile.new) by (repeat split).
  revert H0. generalize EmotionProfile.new as cur.
  induction stimuli as [|stim stimuli IH]; intros cur Hcur; [exact Hcur|].
  cbn [foldl]. apply IH.
  destruct (fltb 0.2 _); [|exact Hcur].
  destruct Hcur as (H1 & H2 & H3 & H4 & H5 & H6).
  repeat split; assumption.
Qed.

Variable libm : Libm.
Variable stray : nat -> float.

Lemma on_evaluate_metabolism (g : Globals) (act : t) (ctx : AnimationContext) :
  let after := on_evaluate libm stray (g, act) ctx in
  metabolism (snd after)
  = if (Z.rem (frame_counter g + 1) 4 =? 0)%Z
    then MetabolicSystem.update libm (metabolism act)
           (foldl Qplus 0 (muscle_activations (bridge (snd after))))
           (delta_time ctx * 4)
    else metabolism act.
Proof. reflexivity. Qed.

Lemma on_evaluate_globals (g : Globals) (act : t) (ctx : AnimationContext) :
  fst (on_evaluate libm stray (g, act) ctx)
  = mkGlobals (GRID_SIZE g) (t_config g) (s_initialized g) (frame_counter g + 1).
Proof. reflexivity. Qed.

Lemma on_evaluate_tendons (g : Globals) (act : t) (ctx : AnimationContext) :
  let after := on_evaluate libm stray (g, act) ctx in
  tendons (snd after)
  = if enable_hysteresis (features (t_config g))
    then update_tendons libm (muscles (snd after)) (tendons act) (delta_time ctx)
    else tendons act.
Proof. reflexivity. Qed.

Lemma zero_sum (xs : list float) (acc : float) :
  Forall (fun x => x == 0) xs -> foldl Qplus acc xs == acc.
Proof.
  intros H. revert acc. induction H as [|x xs Hx _ IH]; intros acc; [reflexivity|].
  cbn [foldl]. rewrite IH, Hx. ring.
Qed.

End FrameMore.

(** X22.  After any frame, on any actor, the actor's emotion carries no
    social channel and no surprise, disgust, trust or anticipation: of the 30
    telemetry entries of [to_vector], those at indices 4 to 15 and 23 to 29
    are 0. *)
Theorem X22_frame_emotion_has_only_four_channels
    (libm : Libm) (stray : nat -> float) (g : Globals)
    (act : PhysiologicalActor.t) (ctx : AnimationContext) :
  let e := PhysiologicalActor.current_emotion
             (snd (PhysiologicalActor.on_evaluate libm stray (g, act) ctx)) in
  EmotionProfile.social e = EmotionProfile.Social0
  /\ EmotionProfile.surprise (EmotionProfile.primary e) = 0
  /\ EmotionProfile.disgust (EmotionProfile.primary e) = 0
  /\ EmotionProfile.trust (EmotionProfile.primary e) = 0
  /\ EmotionProfile.anticipation (EmotionProfile.primary e) = 0
  /\ length (EmotionVector.to_vector e) = 30%nat
  /\ take 12 (drop 4 (EmotionVector.to_vector e)) = replicate 12 0
  /\ drop 23 (EmotionVector.to_vector e) = replicate 7 0.
Proof.
  intros e. subst e. rewrite on_evaluate_emotion. cbv zeta.
  destruct (appraise_all_blend_limited (PhysiologicalActor.stimuli_of ctx))
    as (Hs & _ & H1 & H2 & H3 & H4).
  unfold EmotionVector.to_vector.
  cbn [EmotionProfile.social EmotionProfile.primary].
  rewrite Hs, H1, H2, H3, H4. repeat split.
Qed.

Section ThreatGate.
Import PhysiologicalActor.

Lemma goal_relevance_value (stim : Stimulus) (ctx : AnimationContext) :
  CognitiveAppraiser.goal_relevance (CognitiveAppraiser.appraise stim ctx)
  = urgency stim * intensity stim.
Proof.
  unfold CognitiveAppraiser.appraise.
  destruct (fltb (urgency stim * intensity stim) 0.2); reflexivity.
Qed.

(** The stimulus a context with a threat distance and no urgency yields. *)
Lemma stimuli_of_plain_threat (ctx : AnimationContext) (d : float) :
  parameters ctx !! "threat_distance" = Some d ->
  parameters ctx !! "threat_urgency" = None ->
  stimuli_of ctx = [mkStimulus "threat" (1 / (d + 1)) (mkVec3 0 0 0) 0.5 0.5 0.5].
Proof. intros Hd Hu. unfold stimuli_of. rewrite Hd, Hu. reflexivity. Qed.

(** The fear the stimulus loop leaves for one default-urgency threat. *)
Lemma plain_threat_fear (d : float) :
  0 <= d ->
  let e := appraise_all
             [mkStimulus "threat" (1 / (d + 1)) (mkVec3 0 0 0) 0.5 0.5 0.5] in
  (1.5 <= d -> e = EmotionProfile.new)
  /\ (d < 1.5 -> EmotionProfile.fear (EmotionProfile.primary e) == 1.5 / (d + 1)).
Proof.
  intros Hd e. subst e.
  set (stim := mkStimulus "threat" (1 / (d + 1)) (mkVec3 0 0 0) 0.5 0.5 0.5).
  unfold appraise_all. cbn [foldl].
  set (ctx := mkContext 0 _ _).
  rewrite goal_relevance_value. cbn [urgency intensity stim].
  assert (Hpos : 0 < d + 1) by lra.
  assert (Hinv : (d + 1) * (1 / (d + 1)) == 1) by (field; lra).
  split.
  - intros Hfar.
    destruct (fltb 0.2 (0.5 * (1 / (d + 1)))) eqn:Hgate; [|reflexivity].
    apply fltb_lt in Hgate. nra.
  - intros Hnear.
    assert (Hrel : 0.2 < 0.5 * (1 / (d + 1))) by nra.
    destruct (fltb 0.2 (0.5 * (1 / (d + 1)))) eqn:Hgate;
      [|apply not_true_iff_false in Hgate; rewrite fltb_lt in Hgate; contradiction].
    cbn [blend_emotions_max EmotionProfile.primary EmotionProfile.fear].
    rewrite appraise_threat_fear.
    + cbn [intensity familiarity stim emotion_mood_stress ctx
           EmotionProfile.new EmotionProfile.primary EmotionProfile.Primary0
           EmotionProfile.fear EmotionProfile.mood EmotionProfile.Mood0
           EmotionProfile.stress].
      match goal with
      | |- fmax 0 ?v == _ =>
          assert (Hv : v == 1.5 / (d + 1)) by (field; lra);
          destruct (fmax_cases 0 v) as [[_ ->]|[Hle ->]]
      end.
      * exact Hv.
      * assert (0 < 1.5 / (d + 1)) by (apply Qlt_shift_div_l; lra). lra.
    + reflexivity.
    + cbn [urgency intensity stim].
      apply not_true_iff_false. rewrite fltb_lt. lra.
Qed.

End ThreatGate.

(** X23.  A threat given by distance alone (urgency defaulting to 0.5)
    only registers when it is closer than 1.5: at distance 1.5 or more the
    frame leaves fear at 0, and at a distance d in [0, 1.5) it leaves fear
    at 1.5 / (d + 1). *)
Theorem X23_threat_registers_only_below_distance_1_5
    (libm : Libm) (stray : nat -> float) (g : Globals)
    (act : PhysiologicalActor.t) (ctx : AnimationContext) (d : float) :
  parameters ctx !! "threat_distance" = Some d ->
  parameters ctx !! "threat_urgency" = None ->
  0 <= d ->
  let fear :=
    EmotionProfile.fear
      (EmotionProfile.primary
         (PhysiologicalActor.current_emotion
            (snd (PhysiologicalActor.on_evaluate libm stray (g, act) ctx)))) in
  (1.5 <= d -> fear = 0) /\ (d < 1.5 -> fear == 1.5 / (d + 1)).
Proof.
  intros Hdist Hurg Hd fear. subst fear.
  rewrite on_evaluate_emotion. cbv zeta.
  cbn [EmotionProfile.primary].
  rewrite (stimuli_of_plain_threat ctx d Hdist Hurg).
  destruct (plain_threat_fear d Hd) as [Hfar Hnear]. cbv zeta in Hfar, Hnear.
  split.
  - intros H. rewrite (Hfar H). reflexivity.
  - exact Hnear.
Qed.

Lemma X23_threat_registers_only_below_distance_1_5_witness :
  let fear :=
    EmotionProfile.fear
      (EmotionProfile.primary
         (PhysiologicalActor.current_emotion
            (snd (PhysiologicalActor.on_evaluate libm_q stray0
                    (initial_globals, default_actor libm_q) far_threat_ctx)))) in
  (1.5 <= 2 -> fear = 0) /\ (2 < 1.5 -> fear == 1.5 / (2 + 1)).
Proof.
  apply X23_threat_registers_only_below_distance_1_5.
  - vm_compute. reflexivity.
  - vm_compute. reflexivity.
  - vm_compute. discriminate.
Defined.

(** X24.  Every frame advances the frame counter by one and leaves the grid
    size and the engine configuration alone.  The metabolism is updated only
    when the new counter is a multiple of 4, then with the sum of the
    activations and four times the frame's dt; on every other frame it is
    left as it was. *)
Theorem X24_metabolism_runs_every_fourth_frame
    (libm : Libm) (stray : nat -> float) (g : Globals)
    (act : PhysiologicalActor.t) (ctx : AnimationContext) :
  let after := PhysiologicalActor.on_evaluate libm stray (g, act) ctx in
  frame_counter (fst after) = (frame_counter g + 1)%Z
  /\ GRID_SIZE (fst after) = GRID_SIZE g
  /\ t_config (fst after) = t_config g
  /\ (Z.rem (frame_counter g + 1) 4 <> 0%Z ->
      PhysiologicalActor.metabolism (snd after) = PhysiologicalActor.metabolism act)
  /\ (Z.rem (frame_counter g + 1) 4 = 0%Z ->
      PhysiologicalActor.metabolism (snd after)
      = MetabolicSystem.update libm (PhysiologicalActor.metabolism act)
          (foldl Qplus 0 (muscle_activations (PhysiologicalActor.bridge (snd after))))
          (delta_time ctx * 4)).
Proof.
  intros after. subst after.
  rewrite on_evaluate_globals. cbn [frame_counter GRID_SIZE t_config].
  split; [reflexivity|]. split; [reflexivity|]. split; [reflexivity|].
  pose proof (on_evaluate_metabolism libm stray g act ctx) as Hm. cbv zeta in Hm.
  split; intros Hrem; rewrite Hm.
  - destruct (Z.eqb_spec (Z.rem (frame_counter g + 1) 4) 0); [contradiction|reflexivity].
  - rewrite Hrem. reflexivity.
Qed.

(** X25.  With the hysteresis feature switched off in the engine
    configuration, a frame leaves every tendon exactly as it was. *)
Theorem X25_hysteresis_flag_gates_the_tendons
    (libm : Libm) (stray : nat -> float) (g : Globals)
    (act : PhysiologicalActor.t) (ctx : AnimationContext) :
  enable_hysteresis (features (Engine.get_config g)) = false ->
  PhysiologicalActor.tendons (snd (PhysiologicalActor.on_evaluate libm stray (g, act) ctx))
  = PhysiologicalActor.tendons act.
Proof.
  intros Hoff.
  pose proof (on_evaluate_tendons libm stray g act ctx) as Ht. cbv zeta in Ht.
  rewrite Ht. unfold Engine.get_config in Hoff. rewrite Hoff. reflexivity.
Qed.

Lemma X25_hysteresis_flag_gates_the_tendons_witness :
  PhysiologicalActor.tendons
    (snd (PhysiologicalActor.on_evaluate libm_q stray0
            (no_hysteresis_globals, default_actor libm_q) threat_ctx))
  = PhysiologicalActor.tendons (default_actor libm_q).
Proof.
  apply X25_hysteresis_flag_gates_the_tendons. reflexivity.
Defined.

Section IdleActor.
Import PhysiologicalActor.
Variable libm : Libm.
Variable stray : nat -> float.

Lemma frame_keeps_stores_full (ga : Globals * t) (ctx : AnimationContext) :
  quiet (snd ga) -> stores_full (snd ga) ->
  stores_full (snd (on_evaluate libm stray ga ctx)).
Proof.
  destruct ga as [g act]. cbn [snd]. intros Hq [HA HP].
  pose proof (frame_keeps_quiet libm stray (g, act) ctx Hq) as Hq'.
  pose proof (on_evaluate_metabolism libm stray g act ctx) as Hm. cbv zeta in Hm.
  unfold stores_full. rewrite Hm.
  destruct (Z.rem (frame_counter g + 1) 4 =? 0)%Z; [|split; assumption].
  apply idle_update_keeps_stores; [|assumption|assumption].
  apply zero_sum.
  destruct (on_evaluate_bridge libm stray g act ctx) as (_ & _ & Hacts).
  cbv zeta in Hacts. rewrite Hacts.
  apply silent_cord_activations. exact (proj2 Hq').
Qed.

Lemma run_frames_keeps_stores_full (ga : Globals * t) (ctxs : list AnimationContext) :
  quiet (snd ga) -> stores_full (snd ga) ->
  stores_full (snd (run_frames libm stray ga ctxs)).
Proof.
  revert ga. induction ctxs as [|ctx ctxs IH]; intros ga Hq Hs; [exact Hs|].
  cbn [run_frames foldl]. apply IH.
  - apply frame_keeps_quiet. exact Hq.
  - apply frame_keeps_stores_full; assumption.
Qed.

End IdleActor.

(** X26.  The actor built with 50 muscles never draws on its energy
    stores: after any number of frames, with any contexts, its ATP and PCr
    are still 1 (its pools never fire, so every metabolic update sees
    activation 0). *)
Theorem X26_default_actor_keeps_ATP_and_PCr
    (libm : Libm) (stray : nat -> float) (g : Globals)
    (ctxs : list AnimationContext) :
  let act :=
    snd (run_frames libm stray
           (g, PhysiologicalActor.new libm g PhysiologicalActor.MUSCLE_COUNT) ctxs) in
  MetabolicSystem.ATP (PhysiologicalActor.metabolism act) == 1
  /\ MetabolicSystem.PCr (PhysiologicalActor.metabolism act) == 1.
Proof.
  intros act. subst act.
  apply (run_frames_keeps_stores_full libm stray).
  - apply new_actor_quiet.
  - unfold stores_full, PhysiologicalActor.new.
    destruct (PhysiologicalActor.initialize_human_muscles _ _ _) as [ms ts].
    cbn. split; reflexivity.
Qed.

(* ----------------------------------------------------------------- *)
(** ** The skeleton *)

Section Skeleton.
Import BallJoint.

Lemma new_joint_limits_ordered (k : nat) (i : nat) (j : BallJoint.t) :
  ArticulatedSkeleton.joints (ArticulatedSkeleton.new k) !! i = Some j ->
  limits_ordered (capsule j).
Proof.
  unfold ArticulatedSkeleton.new. cbn [ArticulatedSkeleton.joints].
  intros Hj.
  destruct (decide (i = ArticulatedSkeleton.SHOULDER)) as [->|Hs].
  - rewrite list_lookup_alter_eq in Hj.
    destruct (alter _ ArticulatedSkeleton.SPINE _ !! ArticulatedSkeleton.SHOULDER)
      as [j0|]; [|discriminate].
    injection Hj as <-. unfold limits_ordered. cbn. repeat split; discriminate.
  - rewrite list_lookup_alter_ne in Hj by congruence.
    destruct (decide (i = ArticulatedSkeleton.SPINE)) as [->|Hp].
    + rewrite list_lookup_alter_eq in Hj.
      destruct (replicate k BallJoint.new !! ArticulatedSkeleton.SPINE) as [j0|] eqn:E;
        [|discriminate].
      apply lookup_replicate in E as [-> _].
      injection Hj as <-. unfold limits_ordered. cbn. repeat split; discriminate.
    + rewrite list_lookup_alter_ne in Hj by congruence.
      apply lookup_replicate in Hj as [-> _].
      unfold limits_ordered. cbn. repeat split; discriminate.
Qed.

End Skeleton.

(** X27.  For a joint whose capsule limits are in order on each axis and an
    inertia other than 0, [BallJoint::forward_dynamics] leaves all three
    angles within the limits, whatever the torque and dt; the capsule itself
    is not changed.  Every joint of a constructed skeleton has its limits in
    order. *)
Theorem X27_forward_dynamics_keeps_angles_within_limits
    (j : BallJoint.t) (inertia dt : float) :
  limits_ordered (BallJoint.capsule j) ->
  ~ inertia == 0 ->
  within_limits (BallJoint.forward_dynamics j inertia dt)
  /\ BallJoint.capsule (BallJoint.forward_dynamics j inertia dt) = BallJoint.capsule j.
Proof.
  intros (Hx & Hy & Hz) _. split; [|reflexivity].
  unfold within_limits, BallJoint.forward_dynamics, per_axis,
    BallJoint.integrate_angle.
  cbn [BallJoint.capsule BallJoint.angle vx vy vz].
  repeat split; apply fclamp_bounds; assumption.
Qed.

(** The shoulder of the default skeleton, pushed hard for one second. *)
Lemma X27_forward_dynamics_keeps_angles_within_limits_witness :
  let pushed :=
    BallJoint.compute_torque shoulder_joint (mkVec3 500 0 0) (mkVec3 0 0 0) 0.1 1 in
  limits_ordered (BallJoint.capsule pushed)
  /\ ~ 1 == 0
  /\ within_limits (BallJoint.forward_dynamics pushed 1 1)
  /\ BallJoint.capsule (BallJoint.forward_dynamics pushed 1 1) = BallJoint.capsule pushed.
Proof.
  intros pushed.
  assert (Hlim : limits_ordered (BallJoint.capsule pushed)).
  { unfold limits_ordered. cbn. repeat split; discriminate. }
  assert (Hin : ~ 1 == 0) by (intros H; discriminate H).
  split; [exact Hlim|]. split; [exact Hin|].
  exact (X27_forward_dynamics_keeps_angles_within_limits pushed 1 1 Hlim Hin).
Defined.

Example shoulder_of_default_skeleton :
  ArticulatedSkeleton.joints
    (ArticulatedSkeleton.new ArticulatedSkeleton.JOINT_COUNT) !! 1%nat
  = Some shoulder_joint.
Proof. reflexivity. Qed.

(** Unclamped, the push of the witness would carry the angle to about 500;
    the integration stops it at the shoulder's upper limit 0.5. *)
Example pushed_shoulder_stops_at_limit :
  vx (BallJoint.angle
        (BallJoint.forward_dynamics
           (BallJoint.compute_torque shoulder_joint (mkVec3 500 0 0) (mkVec3 0 0 0) 0.1 1)
           1 1)) == 0.5.
Proof. vm_compute. reflexivity. Qed.

Section InverseDynamics.
Import ArticulatedSkeleton.

Lemma zeros_balanced (k : nat) : pairs_balanced (replicate k 0).
Proof.
  intros i.
  assert (Hz : forall j, rd (replicate k 0) j = 0).
  { intros j. unfold rd. destruct (replicate k 0 !! j) as [x|] eqn:E; [|reflexivity].
    apply lookup_replicate in E as [-> _]. reflexivity. }
  rewrite !Hz. repeat split; try lra. left. reflexivity.
Qed.

(** Writing an antagonist pair [max(0, x)], [max(0, -x)] keeps a vector
    balanced. *)
Lemma write_pair_balanced (mf : list float) (i : nat) (z lever : float) :
  pairs_balanced mf ->
  pairs_balanced (<[(i * 2 + 1)%nat := fmax 0 (- z / lever)]>
                    (<[(i * 2)%nat := fmax 0 (z / lever)]> mf)).
Proof.
  intros Hb k.
  assert (Hneg : - z / lever == - (z / lever)) by (unfold Qdiv; ring).
  destruct (decide (k = i)) as [->|Hne].
  - destruct (decide (i * 2 + 1 < length mf)%nat) as [Hin|Hout].
    + rewrite rd_insert_eq by (rewrite length_insert; exact Hin).
      rewrite rd_insert_ne by lia. rewrite rd_insert_eq by lia.
      destruct (fmax_cases 0 (z / lever)) as [[H1 ->]|[H1 ->]];
        destruct (fmax_cases 0 (- z / lever)) as [[H2 ->]|[H2 ->]];
        repeat split; try lra; try (left; reflexivity); try (right; reflexivity).
    + rewrite (list_insert_ge _ (i * 2 + 1)) by (rewrite length_insert; lia).
      destruct (Hb i) as (H0 & H1 & H01).
      assert (Hodd : rd (<[(i * 2)%nat := fmax 0 (z / lever)]> mf) (i * 2 + 1)
                     = rd mf (i * 2 + 1)) by (apply rd_insert_ne; lia).
      assert (Hpast : rd mf (i * 2 + 1) = 0).
      { unfold rd. rewrite lookup_ge_None_2 by lia. reflexivity. }
      rewrite Hodd, Hpast.
      destruct (rd_insert_cases mf (i * 2) (i * 2) (fmax 0 (z / lever))) as [-> | ->].
      * destruct (fmax_cases 0 (z / lever)) as [[H ->]|[H ->]];
          repeat split; try lra; right; reflexivity.
      * repeat split; try lra. right. reflexivity.
  - rewrite !rd_insert_ne by lia. apply Hb.
Qed.

Lemma inverse_dynamics_loop (sk : t) (stray_force : nat -> Vec3)
    (ext_forces : list Vec3) (k : nat) (mf : list float) :
  pairs_balanced mf ->
  let body := fun i muscle_forces =>
    let req := torque_required sk stray_force ext_forces i in
    if (i * 2 + 1 <? length muscle_forces)%nat
    then <[(i * 2 + 1)%nat := fmax 0 (- vz req / lever_arm sk)]>
           (<[(i * 2)%nat := fmax 0 (vz req / lever_arm sk)]> muscle_forces)
    else muscle_forces in
  pairs_balanced (for_range k body mf)
  /\ length (for_range k body mf) = length mf.
Proof.
  intros Hb body. induction k as [|k [IHb IHl]]; [split; [exact Hb|reflexivity]|].
  rewrite for_range_S. unfold body at 1 3. cbv zeta.
  destruct (k * 2 + 1 <? length (for_range k body mf))%nat.
  - split; [apply write_pair_balanced; exact IHb|].
    rewrite !length_insert. exact IHl.
  - split; assumption.
Qed.

End InverseDynamics.

(** X28.  [inverse_dynamics] returns two forces per joint, none of them
    negative, and never asks both muscles of an antagonist pair to pull: of
    slots 2i and 2i+1 at least one is 0.  This holds for every skeleton and
    every argument. *)
Theorem X28_inverse_dynamics_pairs_are_balanced
    (sk : ArticulatedSkeleton.t) (stray_force : nat -> Vec3)
    (joint_angles joint_velocities ext_forces : list Vec3) :
  let muscle_forces :=
    ArticulatedSkeleton.inverse_dynamics sk stray_force
      joint_angles joint_velocities ext_forces in
  length muscle_forces = (length (ArticulatedSkeleton.joints sk) * 2)%nat
  /\ Forall (fun x => 0 <= x) muscle_forces
  /\ pairs_balanced muscle_forces.
Proof.
  intros mf. subst mf. unfold ArticulatedSkeleton.inverse_dynamics.
  destruct (inverse_dynamics_loop sk stray_force ext_forces
              (Nat.min (length (ArticulatedSkeleton.joints sk)) (length joint_angles))
              (replicate (length (ArticulatedSkeleton.joints sk) * 2) 0)
              (zeros_balanced _)) as [Hb Hl].
  cbv zeta in Hb, Hl.
  split; [rewrite Hl; apply length_replicate|].
  split; [|exact Hb].
  apply Forall_lookup. intros j x Hx.
  assert (Hrd : rd (for_range
                      (Nat.min (length (ArticulatedSkeleton.joints sk)) (length joint_angles))
                      _ (replicate (length (ArticulatedSkeleton.joints sk) * 2) 0)) j = x)
    by (unfold rd; rewrite Hx; reflexivity).
  rewrite <- Hrd.
  destruct (Nat.Even_or_Odd j) as [[i ->]|[i ->]].
  - replace (2 * i)%nat with (i * 2)%nat by lia. apply (Hb i).
  - replace (2 * i + 1)%nat with (i * 2 + 1)%nat by lia. apply (Hb i).
Qed.

(** Under gravity alone every flexor of the default skeleton is asked for
    98.1 and every extensor for nothing. *)
Example inverse_dynamics_under_gravity :
  let sk := ArticulatedSkeleton.new 2 in
  let rest := replicate 2 (mkVec3 0 0 0) in
  Forall2 Qeq
    (ArticulatedSkeleton.inverse_dynamics sk (fun _ => mkVec3 0 0 0) rest rest rest)
    [98.1; 0; 98.1; 0].
Proof. vm_compute. repeat constructor. Qed.

(* ----------------------------------------------------------------- *)
(** ** The pose buffer *)

Lemma write_keeps_shape (pb : PoseBuffer.t) (i : nat) (ch : string) (v : m128) :
  PoseBuffer.bone_count (PoseBuffer.write_bone_channel pb i ch v)
  = PoseBuffer.bone_count pb
  /\ length (PoseBuffer.rotation_z (PoseBuffer.write_bone_channel pb i ch v))
     = length (PoseBuffer.rotation_z pb).
Proof.
  unfold PoseBuffer.write_bone_channel.
  destruct (PoseBuffer.bone_count pb <=? i)%nat; [split; reflexivity|].
  cbn. rewrite length_insert. split; reflexivity.
Qed.

Lemma run_writes_keeps_shape (pb : PoseBuffer.t) (writes : list (nat * m128)) :
  PoseBuffer.bone_count (run_writes pb writes) = PoseBuffer.bone_count pb
  /\ length (PoseBuffer.rotation_z (run_writes pb writes))
     = length (PoseBuffer.rotation_z pb).
Proof.
  revert pb. induction writes as [|[i v] writes IH]; intros pb; [split; reflexivity|].
  change (run_writes pb ((i, v) :: writes))
    with (run_writes (PoseBuffer.write_bone_channel pb i "rotation" v) writes).
  destruct (IH (PoseBuffer.write_bone_channel pb i "rotation" v)) as [-> ->].
  apply write_keeps_shape.
Qed.

(** X29.  On a buffer built for [bones] bones and written any number of
    times, [write_bone_channel] drops a write at or past [bones] (the buffer
    is returned unchanged), and a write below it stores lane 0 of the value in
    that bone's slot and touches no other slot; the buffer keeps its
    size. *)
Theorem X29_pose_write_is_bounds_checked
    (bones : nat) (writes : list (nat * m128))
    (i : nat) (channel : string) (value : m128) :
  let pb := run_writes (PoseBuffer.new bones) writes in
  let pb' := PoseBuffer.write_bone_channel pb i channel value in
  PoseBuffer.bone_count pb' = bones
  /\ length (PoseBuffer.rotation_z pb') = bones
  /\ ((bones <= i)%nat -> pb' = pb)
  /\ ((i < bones)%nat ->
      PoseBuffer.rotation_z pb' !! i = Some (lane0 value)
      /\ forall j, j <> i ->
           PoseBuffer.rotation_z pb' !! j = PoseBuffer.rotation_z pb !! j).
Proof.
  intros pb pb'.
  destruct (run_writes_keeps_shape (PoseBuffer.new bones) writes) as [Hc Hl].
  fold pb in Hc, Hl. cbn [PoseBuffer.new PoseBuffer.bone_count PoseBuffer.rotation_z] in Hc, Hl.
  rewrite length_replicate in Hl.
  destruct (write_keeps_shape pb i channel value) as [Hc' Hl']. fold pb' in Hc', Hl'.
  split; [congruence|]. split; [congruence|].
  subst pb'. unfold PoseBuffer.write_bone_channel. rewrite Hc.
  split.
  - intros Hge. destruct (Nat.leb_spec bones i); [reflexivity|lia].
  - intros Hlt. destruct (Nat.leb_spec bones i); [lia|].
    cbn [PoseBuffer.rotation_z]. split.
    + apply list_lookup_insert_eq. lia.
    + intros j Hj. apply list_lookup_insert_ne. congruence.
Qed.

(* ----------------------------------------------------------------- *)
(** ** The recorder's buffer *)

Section Recorder.
Import DataRecorder.

Lemma flush_effect (r : t) :
  buffer (flush_to_disk r) = buffer r
  /\ emotion_dset (flush_to_disk r) = emotion_dset r
  /\ ((emotion_dset r < 0)%Z -> current_row (flush_to_disk r) = current_row r)
  /\ ((0 <= emotion_dset r)%Z ->
      current_row (flush_to_disk r) = (current_row r + length (buffer r))%nat).
Proof.
  unfold flush_to_disk.
  destruct (buffer r) as [|s b] eqn:Hb.
  - repeat split; intros; rewrite ?Hb; cbn [length]; try reflexivity; lia.
  - destruct (Z.ltb_spec (emotion_dset r) 0);
      cbn [buffer emotion_dset current_row];
      repeat split; intros; rewrite ?Hb; cbn [length]; try reflexivity; lia.
Qed.

End Recorder.

(** One call: the buffer stays below [BUFFER_SIZE]; a sample that does not
    fill it is appended, the one that fills it empties it. *)
Lemma record_frame_effect (r : DataRecorder.t) (sample : TrainingSample) :
  (length (DataRecorder.buffer r) < DataRecorder.BUFFER_SIZE)%nat ->
  let r' := DataRecorder.record_frame r sample in
  (length (DataRecorder.buffer r') < DataRecorder.BUFFER_SIZE)%nat
  /\ DataRecorder.emotion_dset r' = DataRecorder.emotion_dset r
  /\ ((length (DataRecorder.buffer r) + 1 < DataRecorder.BUFFER_SIZE)%nat ->
      DataRecorder.buffer r' = DataRecorder.buffer r ++ [sample])
  /\ ((length (DataRecorder.buffer r) + 1 = DataRecorder.BUFFER_SIZE)%nat ->
      DataRecorder.buffer r' = [])
  /\ ((0 <= DataRecorder.emotion_dset r)%Z ->
      (DataRecorder.current_row r' + length (DataRecorder.buffer r')
       = DataRecorder.current_row r + length (DataRecorder.buffer r) + 1)%nat)
  /\ ((DataRecorder.emotion_dset r < 0)%Z ->
      DataRecorder.current_row r' = DataRecorder.current_row r).
Proof.
  intros Hlt r'. subst r'. unfold DataRecorder.record_frame.
  cbn [DataRecorder.buffer]. rewrite length_app. cbn [length].
  destruct (flush_effect
              (DataRecorder.mk (DataRecorder.buffer r ++ [sample])
                 (DataRecorder.emotion_dset r) (DataRecorder.current_row r)))
    as (_ & Hd & Hneg & Hpos).
  cbn [DataRecorder.buffer DataRecorder.emotion_dset DataRecorder.current_row]
    in Hd, Hneg, Hpos.
  rewrite length_app in Hpos. cbn [length] in Hpos.
  unfold DataRecorder.BUFFER_SIZE in *.
  destruct (Nat.leb_spec 1024 (length (DataRecorder.buffer r) + 1)) as [Hfull|Hroom].
  - cbn [DataRecorder.buffer DataRecorder.emotion_dset DataRecorder.current_row length].
    split; [lia|]. split; [exact Hd|]. split; [lia|]. split; [reflexivity|].
    split; [intros H; rewrite (Hpos H); lia|exact Hneg].
  - cbn [DataRecorder.buffer DataRecorder.emotion_dset DataRecorder.current_row].
    rewrite length_app. cbn [length].
    split; [lia|]. split; [reflexivity|]. split; [reflexivity|]. split; [lia|].
    split; [lia|reflexivity].
Qed.

(** X30.  Fed any number of samples, a recorder whose buffer starts below
    [BUFFER_SIZE] = 1024 keeps it below 1024.  With a dataset open, rows
    written plus samples buffered grow by exactly one per sample: none is
    lost.  With none open (negative handle) the row counter never moves, so
    every full buffer is dropped unwritten. *)
Theorem X30_recorder_buffer_is_bounded_and_accounted
    (r : DataRecorder.t) (samples : list TrainingSample) :
  (length (DataRecorder.buffer r) < DataRecorder.BUFFER_SIZE)%nat ->
  let r' := run_records r samples in
  (length (DataRecorder.buffer r') < DataRecorder.BUFFER_SIZE)%nat
  /\ DataRecorder.emotion_dset r' = DataRecorder.emotion_dset r
  /\ ((0 <= DataRecorder.emotion_dset r)%Z ->
      (DataRecorder.current_row r' + length (DataRecorder.buffer r')
       = DataRecorder.current_row r + length (DataRecorder.buffer r)
         + length samples)%nat)
  /\ ((DataRecorder.emotion_dset r < 0)%Z ->
      DataRecorder.current_row r' = DataRecorder.current_row r).
Proof.
  revert r. induction samples as [|s samples IH]; intros r Hb.
  - cbn. repeat split; try assumption. intros _. lia.
  - cbv zeta.
    change (run_records r (s :: samples))
      with (run_records (DataRecorder.record_frame r s) samples).
    destruct (record_frame_effect r s Hb) as (Hb' & Hd' & _ & _ & Hpos' & Hneg').
    specialize (IH (DataRecorder.record_frame r s) Hb'). cbv zeta in IH.
    destruct IH as (I1 & I2 & I3 & I4).
    split; [exact I1|]. split; [congruence|]. split.
    + intros Hopen. rewrite I3 by (rewrite Hd'; exact Hopen).
      rewrite (Hpos' Hopen). cbn [length]. lia.
    + intros Hclosed. rewrite I4 by (rewrite Hd'; exact Hclosed).
      exact (Hneg' Hclosed).
Qed.

Lemma X30_recorder_buffer_is_bounded_and_accounted_witness :
  let samples := [mkSample 0.016 [] [] [] []; mkSample 0.032 [] [] [] []] in
  let r' := run_records DataRecorder.new samples in
  (length (DataRecorder.buffer r') < DataRecorder.BUFFER_SIZE)%nat
  /\ DataRecorder.emotion_dset r' = DataRecorder.emotion_dset DataRecorder.new
  /\ ((0 <= DataRecorder.emotion_dset DataRecorder.new)%Z ->
      (DataRecorder.current_row r' + length (DataRecorder.buffer r')
       = DataRecorder.current_row DataRecorder.new
         + length (DataRecorder.buffer DataRecorder.new) + length samples)%nat)
  /\ ((DataRecorder.emotion_dset DataRecorder.new < 0)%Z ->
      DataRecorder.current_row r' = DataRecorder.current_row DataRecorder.new).
Proof.
  apply X30_recorder_buffer_is_bounded_and_accounted.
  unfold DataRecorder.BUFFER_SIZE. cbn. lia.
Defined.
